(** * solar-vector-store: the vector-store service of [main.py]

    A shallow embedding of the FastAPI endpoints of [main.py] and the
    properties of the ingestion and registry pipeline.

    The service keeps one process-wide dictionary, [VECTOR_STORES], and talks
    to three collaborators: the Qdrant client, the Upstage HTTP endpoints
    (document parsing and embeddings) and [uuid.uuid4].  The collaborators are
    modelled as oracles gathered in an environment [Env]; every call the
    service issues is appended to a trace, and an oracle answers from the
    trace so far and the call's arguments, so that a call may succeed once
    and raise the next time.  Endpoints are computations in a state and
    exception monad over the [World] (registry, uuid counter, trace): as in
    Python, what an endpoint wrote before it raised stays written. *)

From stdpp Require Import base option list strings gmap sorting pretty.
From Stdlib Require Import ZArith QArith.

Local Open Scope Z_scope.
Local Open Scope string_scope.
Local Open Scope list_scope.

(** ** Data model *)

(** [rest.Distance] of the Qdrant client. *)
Inductive Distance := COSINE | EUCLID | DOT | MANHATTAN.

Global Instance Distance_eq_dec : EqDecision Distance.
Proof. solve_decision. Defined.

(** An embedding: the list of JSON numbers under [data[0].embedding].  The
    service only passes it on. *)
Definition Vector := list Q.

(** The value of [meta["files"][file_id]]. *)
Record FileRecord := mkFileRecord {
  filename : string;
  pages : nat
}.

(** The value of [VECTOR_STORES[store_id]]. *)
Record Meta := mkMeta {
  name : string;
  collection : string;
  dimension : Z;
  distance : Distance;
  files : gmap string FileRecord
}.

(** [rest.PointStruct(id, vector, payload={"file": .., "page": ..})]. *)
Record PointStruct := mkPoint {
  point_id : string;
  vector : Vector;
  payload_file : string;
  payload_page : nat
}.

(** One hit of [qdrant.search], as the endpoint returns it. *)
Record ScoredPoint := mkHit {
  hit_id : string;
  score : Q;
  hit_payload : string * nat
}.

(** The request bodies (pydantic models). *)
Record CreateVectorStoreRequest := mkCreateReq {
  create_name : string;
  create_dimension : Z;
  create_distance : Distance
}.

Record UpdateVectorStoreRequest := mkUpdateReq {
  update_name : option string;
  update_distance : option Distance
}.

Record QueryRequest := mkQueryReq {
  query : string;
  top_k : Z
}.

(** [UploadFile]: the file name and what [file.file.read()] gives, [None]
    when reading raises. *)
Record UploadFile := mkUpload {
  upload_filename : string;
  upload_read : option (list Byte.byte)
}.

(** The JSON body of the document-parse response, with the fields the
    endpoint reads.  An absent key is [None]. *)
Record ContentObj := mkContent {
  c_html : option string;
  c_text : option string
}.

Record Element := mkElement {
  el_page : option Z;
  el_content : option ContentObj
}.

(** [js_elements] is [None] when the key is absent or its value is not a
    list. *)
Record DPJson := mkDPJson {
  js_elements : option (list Element);
  js_content : option ContentObj
}.

Inductive DPOutcome :=
  | DP_HTTPError            (* transport failure, or raise_for_status() *)
  | DP_BadJson              (* dp_resp.json() raises a ValueError *)
  | DP_Json (j : DPJson).

(** ** Calls to the collaborators *)

Module qdrant.
(** The methods of the Qdrant client the service calls, with their
    arguments. *)
Inductive call :=
  | recreate_collection (collection_name : string) (size : Z) (dist : Distance)
  | create_payload_index (collection_name field_name field_schema : string)
  | delete_collection (collection_name : string)
  | upsert (collection_name : string) (points : list PointStruct)
  | delete (collection_name : string) (key value : string)
  | search (collection_name : string) (query_vector : Vector) (limit : Z).

End qdrant.

(** What the service did to the outside, in order.  [ok] says whether the
    call returned ([true]) or raised ([false]). *)
Inductive Event :=
  | EvQdrant (c : qdrant.call) (ok : bool)
  | EvParse (fname : string) (content : list Byte.byte)
  | EvEmbed (model : string) (input : string) (ok : bool).

(** The collaborators. *)
Record Env := mkEnv {
  (* str(uuid.uuid4()) at the n-th call of the process *)
  uuid4 : nat → string;
  (* does this Qdrant call raise, after this history? *)
  qdrant_raises : list Event → qdrant.call → bool;
  (* the hits of a search that does not raise *)
  qdrant_hits : list Event → qdrant.call → list ScoredPoint;
  (* the document-parse endpoint *)
  dp_response : list Event → string → list Byte.byte → DPOutcome;
  (* the embeddings endpoint: None when the post, raise_for_status() or
     the ["data"][0]["embedding"] lookup raises *)
  embed_response : list Event → string → string → option Vector
}.

Module settings.
Definition embed_model_passage : string := "solar-embedding-1-large-passage".
Definition embed_model_query : string := "solar-embedding-1-large-query".
End settings.

(** ** The state and exception monad *)

Inductive exn :=
  | HTTPException (status_code : Z) (detail : string)
  | httpx_HTTPError
  | ValueError (msg : string)
  | Exception.

Record World := mkWorld {
  VECTOR_STORES : gmap string Meta;
  uuid_count : nat;
  trace : list Event
}.

Inductive Outcome (A : Type) :=
  | Returned (a : A)
  | Raised (e : exn).
Arguments Returned {A} a.
Arguments Raised {A} e.

Definition M (A : Type) : Type := World → Outcome A * World.

Global Instance M_ret : MRet M := λ A a w, (Returned a, w).

Global Instance M_bind : MBind M := λ A B f m w,
  match m w with
  | (Returned a, w') => f a w'
  | (Raised e, w') => (Raised e, w')
  end.

Definition raise {A} (e : exn) : M A := λ w, (Raised e, w).

(** [try: m except <catches> as e: handler e]. *)
Definition try_except {A} (m : M A) (catches : exn → bool) (handler : exn → M A) : M A :=
  λ w, match m w with
       | (Returned a, w') => (Returned a, w')
       | (Raised e, w') => if catches e then handler e w' else (Raised e, w')
       end.

(** [except Exception]: every exception is one. *)
Definition any_Exception (e : exn) : bool := true.

(** [except (httpx.HTTPError, ValueError)]. *)
Definition HTTPError_or_ValueError (e : exn) : bool :=
  match e with
  | httpx_HTTPError | ValueError _ => true
  | _ => false
  end.

Definition registry : M (gmap string Meta) := λ w, (Returned (VECTOR_STORES w), w).

Definition set_registry (r : gmap string Meta) : M unit :=
  λ w, (Returned tt, mkWorld r (uuid_count w) (trace w)).

Definition emit (e : Event) : M unit :=
  λ w, (Returned tt, mkWorld (VECTOR_STORES w) (uuid_count w) (trace w ++ [e])).

Definition history : M (list Event) := λ w, (Returned (trace w), w).

Section Service.
Context (env : Env).

(** [str(uuid.uuid4())]. *)
Definition uuid4_str : M string :=
  λ w, (Returned (uuid4 env (uuid_count w)),
        mkWorld (VECTOR_STORES w) (S (uuid_count w)) (trace w)).

(** A Qdrant call whose result the service drops. *)
Definition qdrant_do (c : qdrant.call) : M unit :=
  h ← history;
  if qdrant_raises env h c
  then emit (EvQdrant c false) ;; raise Exception
  else emit (EvQdrant c true).

(** [qdrant.search(...)]. *)
Definition qdrant_search (coll : string) (q_vec : Vector) (limit : Z)
  : M (list ScoredPoint) :=
  h ← history;
  let c := qdrant.search coll q_vec limit in
  if qdrant_raises env h c
  then emit (EvQdrant c false) ;; raise Exception
  else emit (EvQdrant c true) ;; mret (qdrant_hits env h c).

(** [http_client.post(upstage_dp_url, ...)], [raise_for_status()] and
    [.json()]. *)
Definition post_document_parse (fname : string) (content : list Byte.byte)
  : M DPJson :=
  h ← history;
  emit (EvParse fname content) ;;
  match dp_response env h fname content with
  | DP_HTTPError => raise httpx_HTTPError
  | DP_BadJson => raise (ValueError "invalid JSON")
  | DP_Json j => mret j
  end.

(** [http_client.post(upstage_embed_url, json={"model": .., "input": [text]})],
    [raise_for_status()] and [.json()["data"][0]["embedding"]]. *)
Definition post_embeddings (model text : string) : M Vector :=
  h ← history;
  match embed_response env h model text with
  | None => emit (EvEmbed model text false) ;; raise Exception
  | Some v => emit (EvEmbed model text true) ;; mret v
  end.
End Service.

(** ** Normalising the parser response (upload_file, the parsing block) *)

(** Python truthiness of a string. *)
Definition truthy (s : string) : bool :=
  match s with
  | EmptyString => false
  | String _ _ => true
  end.

(** The separator of ["\n".join(...)]. *)
Definition newline : string := String (Ascii.ascii_of_nat 10) EmptyString.

(** [a or b] where [a] is the result of [dict.get(key)]. *)
Definition or_else (a : option string) (b : string) : string :=
  match a with
  | Some s => if truthy s then s else b
  | None => b
  end.

(** [el.get("content", {}).get("html", "")]. *)
Definition element_html (el : Element) : string :=
  match el_content el with
  | Some c => default "" (c_html c)
  | None => ""
  end.

(** [el.get("page", 1)]. *)
Definition element_page (el : Element) : Z := default 1 (el_page el).

(** [pages_map] is a Python dict: keys in insertion order.
    [pages_map.setdefault(pg, []).append(html)]. *)
Fixpoint setdefault_append (pg : Z) (html : string) (pages_map : list (Z * list string))
  : list (Z * list string) :=
  match pages_map with
  | [] => [(pg, [html])]
  | (k, v) :: rest =>
      if decide (k = pg) then (k, v ++ [html]) :: rest
      else (k, v) :: setdefault_append pg html rest
  end.

(** [pages_map[p]], for a key of the dict. *)
Fixpoint getitem (p : Z) (pages_map : list (Z * list string)) : list string :=
  match pages_map with
  | [] => []
  | (k, v) :: rest => if decide (k = p) then v else getitem p rest
  end.

(** The body of [for el in elements]. *)
Definition group_element (pages_map : list (Z * list string)) (el : Element)
  : list (Z * list string) :=
  let pg := element_page el in
  let html := element_html el in
  if truthy html then setdefault_append pg html pages_map else pages_map.

(** [sorted(pages_map)]: the keys in ascending order. *)
Definition sorted (keys : list Z) : list Z := merge_sort Z.le keys.

Definition pages_of_elements (els : list Element) : list string :=
  let pages_map := foldl group_element [] els in
  map (λ p, String.concat newline (getitem p pages_map)) (sorted (pages_map.*1)).

(** [content_obj.get("html") or content_obj.get("text") or ""]. *)
Definition content_html (c : option ContentObj) : string :=
  match c with
  | Some c => or_else (c_html c) (or_else (c_text c) "")
  | None => ""
  end.

Definition normalize_pages (json_resp : DPJson) : list string :=
  match js_elements json_resp with
  | Some (el :: els) => pages_of_elements (el :: els)
  | _ =>
      let html := content_html (js_content json_resp) in
      if truthy html then [html] else []
  end.

(** ** The registry entry behind [meta] *)

(** In [main.py], [meta] is the dictionary stored in [VECTOR_STORES]:
    assigning to [meta[...]] changes the registry entry.  A [meta] obtained
    from [VECTOR_STORES.get(store_id)] is therefore read and written through
    its key. *)
Definition deref (store_id : string) : M Meta :=
  r ← registry;
  match r !! store_id with
  | Some meta => mret meta
  | None => raise Exception
  end.

Definition meta_set (store_id : string) (f : Meta → Meta) : M unit :=
  r ← registry; set_registry (alter f store_id r).

Definition with_name (n : string) (m : Meta) : Meta :=
  mkMeta n (collection m) (dimension m) (distance m) (files m).

Definition with_distance (d : Distance) (m : Meta) : Meta :=
  mkMeta (name m) (collection m) (dimension m) d (files m).

Definition with_file (file_id : string) (f : FileRecord) (m : Meta) : Meta :=
  mkMeta (name m) (collection m) (dimension m) (distance m) (<[file_id := f]> (files m)).

Definition without_file (file_id : string) (m : Meta) : Meta :=
  mkMeta (name m) (collection m) (dimension m) (distance m) (delete file_id (files m)).

(** ** The endpoints *)

Section Endpoints.
Context (env : Env).

Definition not_found {A} : M A := raise (HTTPException 404 "Vector store not found").

(** POST /vector_stores *)
Definition create_vector_store (req : CreateVectorStoreRequest) : M (string * string) :=
  store_id ← uuid4_str env;
  let coll_name := "vs_" +:+ store_id in
  try_except
    (qdrant_do env (qdrant.recreate_collection coll_name
                      (create_dimension req) (create_distance req)) ;;
     qdrant_do env (qdrant.create_payload_index coll_name "file" "keyword") ;;
     r ← registry;
     set_registry (<[store_id := mkMeta (create_name req) coll_name
                                   (create_dimension req) (create_distance req) ∅]> r) ;;
     mret (store_id, create_name req))
    any_Exception
    (λ e, raise (HTTPException 500 "Failed to create vector store")).

(** GET /vector_stores/{store_id} *)
Definition get_vector_store (store_id : string) : M (string * Meta) :=
  r ← registry;
  match r !! store_id with
  | None => not_found
  | Some meta => mret (store_id, meta)
  end.

(** PATCH /vector_stores/{store_id} *)
Definition update_vector_store (store_id : string) (req : UpdateVectorStoreRequest)
  : M (string * Meta) :=
  r ← registry;
  match r !! store_id with
  | None => not_found
  | Some _ =>
      try_except
        ((match update_name req with
          | Some n => if truthy n then meta_set store_id (with_name n) else mret tt
          | None => mret tt
          end) ;;
         meta ← deref store_id;
         (match update_distance req with
          | Some d =>
              if bool_decide (d ≠ distance meta) then
                qdrant_do env (qdrant.recreate_collection (collection meta)
                                 (dimension meta) d) ;;
                qdrant_do env (qdrant.create_payload_index (collection meta)
                                 "file" "keyword") ;;
                meta_set store_id (with_distance d)
              else mret tt
          | None => mret tt
          end) ;;
         meta ← deref store_id;
         mret (store_id, meta))
        any_Exception
        (λ e, raise (HTTPException 500 "Failed to update vector store"))
  end.

(** DELETE /vector_stores/{store_id} *)
Definition delete_vector_store (store_id : string) : M string :=
  r ← registry;
  set_registry (delete store_id r) ;;      (* VECTOR_STORES.pop(store_id, None) *)
  match r !! store_id with
  | None => not_found
  | Some meta =>
      try_except
        (qdrant_do env (qdrant.delete_collection (collection meta)) ;;
         mret "deleted")
        any_Exception
        (λ e, raise (HTTPException 500 "Failed to delete vector store"))
  end.

(** The loop [for idx, text in enumerate(pages)] of upload_file, from
    index [idx] on, with the points appended so far. *)
Fixpoint embed_pages (fname : string) (idx : nat) (pages : list string)
         (points : list PointStruct) : M (list PointStruct) :=
  match pages with
  | [] => mret points
  | text :: rest =>
      emb ← try_except
              (v ← post_embeddings env settings.embed_model_passage text;
               mret (Some v))
              any_Exception
              (λ e, mret None);
      match emb with
      | None => embed_pages fname (S idx) rest points          (* continue *)
      | Some v =>
          pid ← uuid4_str env;
          embed_pages fname (S idx) rest (points ++ [mkPoint pid v fname idx])
      end
  end.

(** POST /vector_stores/{store_id}/files *)
Definition upload_file (store_id : string) (file : UploadFile) : M (string * nat) :=
  r ← registry;
  match r !! store_id with
  | None => not_found
  | Some _ =>
      content ← match upload_read file with
                | Some c => mret c
                | None => raise (HTTPException 400 "Invalid file upload")
                end;
      pages ← try_except
                (json_resp ← post_document_parse env (upload_filename file) content;
                 let pages := normalize_pages json_resp in
                 match pages with
                 | [] => raise (ValueError
                           "Invalid parse response structure: no pages extracted")
                 | _ :: _ => mret pages
                 end)
                HTTPError_or_ValueError
                (λ e, raise (HTTPException 500 "Document parsing failed"));
      points ← embed_pages (upload_filename file) 0 pages [];
      match points with
      | [] => raise (HTTPException 500 "No embeddings generated")
      | _ :: _ =>
          try_except
            (meta ← deref store_id;
             qdrant_do env (qdrant.upsert (collection meta) points))
            any_Exception
            (λ e, raise (HTTPException 500 "Failed to store embeddings")) ;;
          file_id ← uuid4_str env;
          meta_set store_id
            (with_file file_id (mkFileRecord (upload_filename file) (length pages))) ;;
          mret (file_id, length pages)
      end
  end.

(** GET /vector_stores/{store_id}/files *)
Definition list_files (store_id : string) : M (gmap string FileRecord) :=
  r ← registry;
  match r !! store_id with
  | None => not_found
  | Some meta => mret (files meta)
  end.

(** GET /vector_stores/{store_id}/files/{file_id} *)
Definition get_file (store_id file_id : string) : M FileRecord :=
  r ← registry;
  match r !! store_id ≫= λ meta, files meta !! file_id with
  | None => raise (HTTPException 404 "File not found")
  | Some file_meta => mret file_meta
  end.

(** DELETE /vector_stores/{store_id}/files/{file_id} *)
Definition delete_file (store_id file_id : string) : M string :=
  r ← registry;
  match r !! store_id ≫= λ meta, files meta !! file_id with
  | None => raise (HTTPException 404 "File not found")
  | Some file_meta =>
      try_except
        (meta ← deref store_id;
         qdrant_do env (qdrant.delete (collection meta) "file" (filename file_meta)) ;;
         meta_set store_id (without_file file_id) ;;
         mret "deleted")
        any_Exception
        (λ e, raise (HTTPException 500 "Failed to delete file vectors"))
  end.

(** POST /vector_stores/{store_id}/query *)
Definition query_vectors (store_id : string) (req : QueryRequest)
  : M (list ScoredPoint) :=
  r ← registry;
  match r !! store_id with
  | None => not_found
  | Some meta =>
      q_vec ← try_except
                (post_embeddings env settings.embed_model_query (query req))
                any_Exception
                (λ e, raise (HTTPException 500 "Failed to embed query"));
      try_except
        (qdrant_search env (collection meta) q_vec (top_k req))
        any_Exception
        (λ e, raise (HTTPException 500 "Search operation failed"))
  end.
End Endpoints.

(** ** The error taxonomy *)

Inductive ErrorClass :=
  | NotFound | ValidationError | ParseError | EmbeddingError | BackingStoreError.

(** [main.py] has no error classes of its own: it raises [HTTPException]
    with a status code and a fixed message.  The taxonomy of the
    specification names each raise site: 404 is NotFound, the 400 of an
    unreadable upload is ValidationError, and the 500s are told apart by the
    boundary where they are raised, which the message identifies. *)
Definition error_class (e : exn) : option ErrorClass :=
  match e with
  | HTTPException 404 _ => Some NotFound
  | HTTPException 400 _ => Some ValidationError
  | HTTPException 500 d =>
      if bool_decide (d = "Document parsing failed") then Some ParseError
      else if bool_decide (d = "No embeddings generated") then Some EmbeddingError
      else if bool_decide (d = "Failed to embed query") then Some EmbeddingError
      else if bool_decide (d ∈ ["Failed to create vector store";
                                "Failed to update vector store";
                                "Failed to delete vector store";
                                "Failed to store embeddings";
                                "Failed to delete file vectors";
                                "Search operation failed"])
      then Some BackingStoreError
      else None
  | _ => None
  end.

(** ** Reading a trace *)

(** The events a run added: the trace only grows at its end. *)
Definition new_events (w w' : World) : list Event :=
  drop (length (trace w)) (trace w').

Definition embed_failed (e : Event) : bool :=
  match e with EvEmbed _ _ false => true | _ => false end.

(** How many embedding calls raised. *)
Definition embed_failures (evs : list Event) : nat :=
  length (List.filter embed_failed evs).

(** The texts sent to the embeddings endpoint, in order. *)
Definition embed_inputs (evs : list Event) : list string :=
  omap (λ e, match e with EvEmbed _ text _ => Some text | _ => None end) evs.

Definition upsert_failed (e : Event) : bool :=
  match e with EvQdrant (qdrant.upsert _ _) false => true | _ => false end.

(** A call to Qdrant that raised. *)
Definition qdrant_failed (e : Event) : bool :=
  match e with EvQdrant _ false => true | _ => false end.

(** The batches handed to [qdrant.upsert], whether the call returned or
    raised. *)
Definition upsert_batches (evs : list Event) : list (list PointStruct) :=
  omap (λ e, match e with
             | EvQdrant (qdrant.upsert _ points) _ => Some points
             | _ => None
             end) evs.

(** The embedding events of a run of the loop over [pages], where [oks]
    says page by page whether the call returned. *)
Definition embed_events (pages : list string) (oks : list bool) : list Event :=
  zip_with (EvEmbed settings.embed_model_passage) pages oks.

(** Every store id in the registry came out of [uuid.uuid4]. *)
Definition ids_issued (env : Env) (w : World) : Prop :=
  ∀ store_id, is_Some (VECTOR_STORES w !! store_id) →
    ∃ i, (i < uuid_count w)%nat ∧ uuid4 env i = store_id.

(** The process starts with an empty registry. *)
Definition initial_world : World := mkWorld ∅ 0 [].

(** ** Grouping by page, as the specification words it *)

(** The rendered content of the elements of page [p], in the order of the
    response; an element without html renders nothing. *)
Definition htmls_on_page (p : Z) (els : list Element) : list string :=
  element_html <$> filter (λ el, element_page el = p ∧ element_html el ≠ "") els.

(** The text of page [p]: its elements' content, one per line. *)
Definition page_text (els : list Element) (p : Z) : string :=
  String.concat newline (htmls_on_page p els).

(** ** The pages of a response, read off its fields *)

(** What an element renders: the html of its content, when it has a content
    with an html that is not empty, together with the element's page number
    (page 1 when the element names none). *)
Definition rendered (el : Element) : option (Z * string) :=
  match el_content el with
  | Some c =>
      match c_html c with
      | Some h => if decide (h = "") then None else Some (default 1 (el_page el), h)
      | None => None
      end
  | None => None
  end.

(** What the elements render on page [p], in the order of the response. *)
Definition rendered_on_page (p : Z) (els : list Element) : list string :=
  omap (λ el, match rendered el with
              | Some (q, h) => if decide (q = p) then Some h else None
              | None => None
              end) els.

(** The page numbers on which something is rendered, each once, in
    ascending order. *)
Definition page_numbers (els : list Element) : list Z :=
  merge_sort Z.le (remove_dups ((omap rendered els).*1)).

(** Grouped by page number, concatenated within each page (one element per
    line), pages in ascending page-number order. *)
Definition grouped_pages (els : list Element) : list string :=
  (λ p, String.concat newline (rendered_on_page p els)) <$> page_numbers els.

(** The single page taken from the top-level content field: its html, or
    else its text, when there is one that is not empty. *)
Definition single_page (content : option ContentObj) : list string :=
  match content with
  | Some c =>
      match c_html c with
      | Some (String a h) => [String a h]
      | _ =>
          match c_text c with
          | Some (String a t) => [String a t]
          | _ => []
          end
      end
  | None => []
  end.

(** The pages of a parser response. *)
Definition pages_by_fields (j : DPJson) : list string :=
  match js_elements j with
  | Some (el :: els) => grouped_pages (el :: els)
  | _ => single_page (js_content j)
  end.

(** ** The paths through upload_file *)

(** One constructor per way out of [upload_file], with the outcome and the
    world it leaves.  [upload_file_paths] below shows that every run takes
    exactly one of them. *)
Inductive upload_path (env : Env) (store_id : string) (file : UploadFile) (w : World)
  : Outcome (string * nat) → World → Prop :=
  | path_not_found :
      VECTOR_STORES w !! store_id = None →
      upload_path env store_id file w
        (Raised (HTTPException 404 "Vector store not found")) w
  | path_unreadable meta :
      VECTOR_STORES w !! store_id = Some meta →
      upload_read file = None →
      upload_path env store_id file w
        (Raised (HTTPException 400 "Invalid file upload")) w
  | path_parse_failed meta content :
      VECTOR_STORES w !! store_id = Some meta →
      upload_read file = Some content →
      match dp_response env (trace w) (upload_filename file) content with
      | DP_Json j => normalize_pages j = []
      | _ => True
      end →
      upload_path env store_id file w
        (Raised (HTTPException 500 "Document parsing failed"))
        (mkWorld (VECTOR_STORES w) (uuid_count w)
                 (trace w ++ [EvParse (upload_filename file) content]))
  | path_no_embeddings meta content j oks :
      VECTOR_STORES w !! store_id = Some meta →
      upload_read file = Some content →
      dp_response env (trace w) (upload_filename file) content = DP_Json j →
      normalize_pages j ≠ [] →
      length oks = length (normalize_pages j) →
      List.filter id oks = [] →
      upload_path env store_id file w
        (Raised (HTTPException 500 "No embeddings generated"))
        (mkWorld (VECTOR_STORES w) (uuid_count w)
                 (trace w ++ EvParse (upload_filename file) content
                    :: embed_events (normalize_pages j) oks))
  | path_upsert_failed meta content j oks points :
      VECTOR_STORES w !! store_id = Some meta →
      upload_read file = Some content →
      dp_response env (trace w) (upload_filename file) content = DP_Json j →
      length oks = length (normalize_pages j) →
      length points = length (List.filter id oks) →
      points ≠ [] →
      let h := trace w ++ EvParse (upload_filename file) content
                 :: embed_events (normalize_pages j) oks in
      let c := qdrant.upsert (collection meta) points in
      qdrant_raises env h c = true →
      upload_path env store_id file w
        (Raised (HTTPException 500 "Failed to store embeddings"))
        (mkWorld (VECTOR_STORES w) (uuid_count w + length points)
                 (h ++ [EvQdrant c false]))
  | path_ingested meta content j oks points :
      VECTOR_STORES w !! store_id = Some meta →
      upload_read file = Some content →
      dp_response env (trace w) (upload_filename file) content = DP_Json j →
      length oks = length (normalize_pages j) →
      length points = length (List.filter id oks) →
      points ≠ [] →
      Forall (λ p, payload_file p = upload_filename file ∧
                   (payload_page p < length (normalize_pages j))%nat) points →
      let h := trace w ++ EvParse (upload_filename file) content
                 :: embed_events (normalize_pages j) oks in
      let c := qdrant.upsert (collection meta) points in
      let file_id := uuid4 env (uuid_count w + length points) in
      qdrant_raises env h c = false →
      upload_path env store_id file w
        (Returned (file_id, length (normalize_pages j)))
        (mkWorld
           (alter (with_file file_id
                     (mkFileRecord (upload_filename file)
                                   (length (normalize_pages j))))
                  store_id (VECTOR_STORES w))
           (S (uuid_count w + length points))
           (h ++ [EvQdrant c true])).

(** ** A concrete deployment *)

(** Collaborators and a registry to run the endpoints on: uuids are the
    decimal numerals in order, the parser always answers [dp], Qdrant raises
    on the calls [qdrant_fails] selects, and the embeddings endpoint raises
    on the texts [embed_fails] selects. *)
Module Scenario.
Definition env (qdrant_fails : qdrant.call → bool) (embed_fails : string → bool)
           (dp : DPOutcome) : Env :=
  mkEnv pretty
        (λ _ c, qdrant_fails c)
        (λ _ _, [])
        (λ _ _ _, dp)
        (λ _ _ text, if embed_fails text then None else Some [1 # 2; 1 # 4]%Q).

Definition never {A} (_ : A) : bool := false.
Definition always {A} (_ : A) : bool := true.

(** A response with two pages, page 2 listed first and split over two
    elements, and an element that renders nothing. *)
Definition two_pages : DPJson :=
  mkDPJson
    (Some [mkElement (Some 2) (Some (mkContent (Some "beta") None));
           mkElement None (Some (mkContent (Some "alpha") None));
           mkElement (Some 3) (Some (mkContent (Some "") (Some "ignored")));
           mkElement (Some 2) (Some (mkContent (Some "gamma") None))])
    None.

(** A response without elements and without content. *)
Definition no_pages : DPJson := mkDPJson (Some []) (Some (mkContent None (Some ""))).

Definition store : Meta := mkMeta "old" "vs_0" 4 COSINE ∅.

(** One store, created with the first uuid. *)
Definition world : World := mkWorld {["0" := store]} 1 [].

Definition document : UploadFile := mkUpload "doc.pdf" (Some []).

Definition fails_on (text : string) (t : string) : bool := bool_decide (t = text).

(** The text of page 2 of [two_pages]. *)
Definition second_page : string := "beta" +:+ newline +:+ "gamma".

(** Ingestion with the embedding of page 2 failing. *)
Definition flaky_embedder : Env := env never (fails_on second_page) (DP_Json two_pages).

(** Everything answers. *)
Definition healthy : Env := env never never (DP_Json two_pages).

(** Qdrant is down. *)
Definition qdrant_down : Env := env always never (DP_Json two_pages).

(** The embeddings endpoint is down. *)
Definition embedder_down : Env := env never always (DP_Json two_pages).

(** The parser answers, with nothing to read. *)
Definition empty_parse : Env := env never never (DP_Json no_pages).
End Scenario.

(** ** More ways to read a trace and a registry *)

(** Whether each embedding call of a run returned, in order. *)
Definition embed_oks (evs : list Event) : list bool :=
  omap (λ e, match e with EvEmbed _ _ ok => Some ok | _ => None end) evs.

(** The models the embedding calls of a run named, in order. *)
Definition embed_models (evs : list Event) : list string :=
  omap (λ e, match e with EvEmbed model _ _ => Some model | _ => None end) evs.

(** The Qdrant calls of a run, in order, whether they returned or raised. *)
Definition qdrant_calls (evs : list Event) : list qdrant.call :=
  omap (λ e, match e with EvQdrant c _ => Some c | _ => None end) evs.

(** The positions, counted from [idx], of the calls that returned. *)
Fixpoint successful_indices (idx : nat) (oks : list bool) : list nat :=
  match oks with
  | [] => []
  | true :: oks => idx :: successful_indices (S idx) oks
  | false :: oks => successful_indices (S idx) oks
  end.

(** Every store's collection is named after its id, as create_vector_store
    names it. *)
Definition collections_derived (w : World) : Prop :=
  ∀ store_id meta, VECTOR_STORES w !! store_id = Some meta →
    collection meta = "vs_" +:+ store_id.

(** The entries of [r'] are entries of [r] with the same collection and
    dimension. *)
Definition backing_kept (r r' : gmap string Meta) : Prop :=
  ∀ store_id meta', r' !! store_id = Some meta' →
    ∃ meta, r !! store_id = Some meta ∧
            collection meta' = collection meta ∧
            dimension meta' = dimension meta.

(** What an endpoint other than create_vector_store may do to the
    registry: nothing, remove one store, or rewrite one store keeping its
    collection and dimension. *)
Definition registry_change (r r' : gmap string Meta) : Prop :=
  r' = r ∨
  (∃ store_id, r' = delete store_id r) ∨
  (∃ store_id meta meta',
     r !! store_id = Some meta ∧
     r' = <[store_id := meta']> r ∧
     collection meta' = collection meta ∧
     dimension meta' = dimension meta).

(** ** More of the concrete deployment *)

Module Deployment.
(** The registry after [Scenario.document] has been ingested into store
    "0": the points took the uuids "1" and "2", the file the uuid "3". *)
Definition uploaded : World :=
  (upload_file Scenario.healthy "0" Scenario.document Scenario.world).2.

Definition uploaded_record : FileRecord := mkFileRecord "doc.pdf" 2.

Definition uploaded_store : Meta :=
  mkMeta "old" "vs_0" 4 COSINE {["3" := uploaded_record]}.

(** Qdrant raises on the first call it gets and answers from then on. *)
Definition qdrant_recovers : Env :=
  mkEnv pretty
        (λ h _, negb (existsb qdrant_failed h))
        (λ _ _, [])
        (λ _ _ _, DP_Json Scenario.two_pages)
        (λ _ _ _, Some [1 # 2; 1 # 4]%Q).

(** The parser cannot be reached. *)
Definition parser_down : Env := Scenario.env Scenario.never Scenario.never DP_HTTPError.

(** Elements that render nothing, beside a content field that has html. *)
Definition silent_elements : DPJson :=
  mkDPJson (Some [mkElement (Some 1) (Some (mkContent (Some "") (Some "text")));
                  mkElement (Some 2) None])
           (Some (mkContent (Some "whole document") None)).

(** No elements; the content has an empty html and a text. *)
Definition text_only : DPJson :=
  mkDPJson None (Some (mkContent (Some "") (Some "plain text"))).

(** [uploaded] after the same document has been ingested once more: two
    records, "3" and "6", with the same filename. *)
Definition uploaded_twice : World :=
  (upload_file Scenario.healthy "0" Scenario.document uploaded).2.

Definition uploaded_twice_store : Meta :=
  mkMeta "old" "vs_0" 4 COSINE
         {["3" := uploaded_record; "6" := uploaded_record]}.

(** The point of page 1 of [Scenario.two_pages], the only one that
    [Scenario.flaky_embedder] embeds. *)
Definition first_point : PointStruct := mkPoint "1" [1 # 2; 1 # 4]%Q "doc.pdf" 0.

Definition second_point : PointStruct := mkPoint "2" [1 # 2; 1 # 4]%Q "doc.pdf" 1.
End Deployment.

(** ** Running the monad *)

Ltac run :=
  repeat (progress (cbn [mbind mret M_bind M_ret raise try_except registry
                        set_registry emit history uuid4_str qdrant_do
                        qdrant_search post_document_parse post_embeddings
                        deref meta_set not_found any_Exception
                        HTTPError_or_ValueError
                        VECTOR_STORES uuid_count trace fst snd]
            || unfold mbind, mret, M_bind, M_ret, raise, try_except, registry,
                 set_registry, emit, history, uuid4_str, qdrant_do,
                 qdrant_search, post_document_parse, post_embeddings,
                 deref, meta_set, not_found)).

Lemma world_eta (w : World) :
  mkWorld (VECTOR_STORES w) (uuid_count w) (trace w) = w.
Proof. by destruct w. Qed.

Lemma new_events_app (w : World) r u evs :
  new_events w (mkWorld r u (trace w ++ evs)) = evs.
Proof. unfold new_events; cbn. by rewrite drop_app_length. Qed.

Lemma embed_failures_app evs1 evs2 :
  embed_failures (evs1 ++ evs2) = (embed_failures evs1 + embed_failures evs2)%nat.
Proof. unfold embed_failures. by rewrite List.filter_app, length_app. Qed.

Lemma embed_inputs_app evs1 evs2 :
  embed_inputs (evs1 ++ evs2) = embed_inputs evs1 ++ embed_inputs evs2.
Proof. unfold embed_inputs. by rewrite omap_app. Qed.

Lemma upsert_batches_app evs1 evs2 :
  upsert_batches (evs1 ++ evs2) = upsert_batches evs1 ++ upsert_batches evs2.
Proof. unfold upsert_batches. by rewrite omap_app. Qed.

(** *** The embedding loop *)

Section EmbedLoop.
Context (env : Env) (fname : string).

Lemma embed_events_inputs pages oks :
  length oks = length pages → embed_inputs (embed_events pages oks) = pages.
Proof.
  revert oks; induction pages as [|t pages IH]; intros [|ok oks] Hlen;
    try done; cbn in *.
  f_equal. apply IH. lia.
Qed.

Lemma embed_events_no_upsert pages oks :
  upsert_batches (embed_events pages oks) = [].
Proof.
  revert oks; induction pages as [|t pages IH]; intros [|ok oks]; try done.
  cbn. apply IH.
Qed.

Lemma embed_events_failures pages oks :
  length oks = length pages →
  embed_failures (embed_events pages oks) = length (List.filter negb oks).
Proof.
  revert oks; induction pages as [|t pages IH]; intros [|ok oks] Hlen;
    try done; cbn in *.
  unfold embed_failures in *. cbn.
  destruct ok; cbn; rewrite IH by lia; done.
Qed.

(** The loop visits every page: one embedding call per page, in page
    order, whatever the earlier calls did.  It appends one point per call
    that returned, and touches nothing but the uuid counter and the
    trace. *)
Lemma embed_pages_run pages :
  ∀ idx points w, ∃ new_points oks,
    embed_pages env fname idx pages points w =
      (Returned (points ++ new_points),
       mkWorld (VECTOR_STORES w) (uuid_count w + length new_points)
               (trace w ++ embed_events pages oks)) ∧
    length oks = length pages ∧
    length new_points = length (List.filter id oks) ∧
    Forall (λ p, payload_file p = fname ∧
                 (idx ≤ payload_page p < idx + length pages)%nat) new_points.
Proof.
  induction pages as [|text pages IH]; intros idx points w.
  - exists [], []. cbn. rewrite !app_nil_r, Nat.add_0_r, world_eta.
    by split_and!.
  - cbn [embed_pages]. run.
    destruct (embed_response env (trace w) settings.embed_model_passage text)
      as [v|] eqn:Hemb; run.
    + set (w1 := mkWorld _ _ _).
      destruct (IH (S idx) (points ++ [mkPoint (uuid4 env (uuid_count w)) v fname idx]) w1)
        as (new_points & oks & Hrun & Hlen & Hcount & Hall).
      exists (mkPoint (uuid4 env (uuid_count w)) v fname idx :: new_points), (true :: oks).
      rewrite Hrun. subst w1; cbn. split_and!.
      * rewrite <-!app_assoc. cbn. unfold embed_events.
        do 3 f_equal. lia.
      * by rewrite Hlen.
      * by rewrite Hcount.
      * constructor; [cbn; split; [done|lia]|].
        eapply Forall_impl; [exact Hall|]. cbn. intros p [? ?]. split; [done|lia].
    + set (w1 := mkWorld _ _ _).
      destruct (IH (S idx) points w1)
        as (new_points & oks & Hrun & Hlen & Hcount & Hall).
      exists new_points, (false :: oks).
      rewrite Hrun. subst w1; cbn. split_and!.
      * by rewrite <-app_assoc.
      * by rewrite Hlen.
      * done.
      * eapply Forall_impl; [exact Hall|]. cbn. intros p [? ?]. split; [done|lia].
Qed.
End EmbedLoop.

(** *** upload_file, path by path *)

Lemma upload_file_paths env store_id file w :
  upload_path env store_id file w
    (upload_file env store_id file w).1 (upload_file env store_id file w).2.
Proof.
  unfold upload_file. run.
  destruct (VECTOR_STORES w !! store_id) as [meta|] eqn:Hstore; run;
    [|rewrite ?world_eta; by constructor].
  destruct (upload_read file) as [content|] eqn:Hread; run;
    [|rewrite ?world_eta; by econstructor].
  destruct (dp_response env (trace w) (upload_filename file) content)
    as [| |j] eqn:Hdp; run.
  1,2: eapply path_parse_failed; eauto; by rewrite Hdp.
  destruct (normalize_pages j) as [|page pages] eqn:Hpages; run.
  { eapply path_parse_failed; eauto. by rewrite Hdp. }
  set (w1 := mkWorld _ _ _).
  destruct (embed_pages_run env (upload_filename file) (page :: pages) 0 [] w1)
    as (points & oks & Hrun & Hlen & Hcount & Hall).
  rewrite Hrun. subst w1. cbn [app VECTOR_STORES uuid_count trace] in *.
  rewrite <-(app_assoc (trace w)). cbn [app].
  destruct points as [|pt points]; run.
  - rewrite Nat.add_0_r, <-Hpages.
    eapply path_no_embeddings; eauto; try congruence.
    by destruct (List.filter id oks).
  - rewrite Hstore; run.
    set (pts := pt :: points) in *.
    destruct (qdrant_raises env _ (qdrant.upsert (collection meta) pts)) eqn:Hups; run.
    + rewrite <-Hpages in *.
      eapply path_upsert_failed; eauto.
    + rewrite <-Hpages in *.
      eapply (path_ingested env store_id file w meta content j oks pts); eauto.
      eapply Forall_impl; [exact Hall|]. cbn. intros p [? ?]. split; [done|lia].
Qed.

(** *** What a run of upload_file adds to the trace *)

Lemma new_events_refl w : new_events w w = [].
Proof. unfold new_events. by rewrite drop_all. Qed.

Lemma new_events_app_assoc (w : World) r u evs1 evs2 :
  new_events w (mkWorld r u ((trace w ++ evs1) ++ evs2)) = evs1 ++ evs2.
Proof. by rewrite <-app_assoc, new_events_app. Qed.

Lemma filter_id_negb_length (oks : list bool) :
  (length (List.filter id oks) + length (List.filter negb oks))%nat = length oks.
Proof. induction oks as [|[] oks IH]; cbn; lia. Qed.

Lemma embed_failures_parse_embed fname content pages oks tail :
  length oks = length pages →
  embed_failures tail = 0%nat →
  embed_failures (EvParse fname content :: embed_events pages oks ++ tail)
  = length (List.filter negb oks).
Proof.
  intros Hlen Htail.
  change (EvParse fname content :: embed_events pages oks ++ tail)
    with ([EvParse fname content] ++ embed_events pages oks ++ tail).
  rewrite !embed_failures_app, Htail, embed_events_failures by done.
  cbn. lia.
Qed.

Lemma embed_inputs_parse_embed fname content pages oks tail :
  length oks = length pages →
  embed_inputs tail = [] →
  embed_inputs (EvParse fname content :: embed_events pages oks ++ tail) = pages.
Proof.
  intros Hlen Htail.
  change (EvParse fname content :: embed_events pages oks ++ tail)
    with ([EvParse fname content] ++ embed_events pages oks ++ tail).
  rewrite !embed_inputs_app, Htail, embed_events_inputs, app_nil_r by done.
  done.
Qed.

Lemma upsert_batches_parse_embed fname content pages oks tail :
  upsert_batches (EvParse fname content :: embed_events pages oks ++ tail)
  = upsert_batches tail.
Proof.
  change (EvParse fname content :: embed_events pages oks ++ tail)
    with ([EvParse fname content] ++ embed_events pages oks ++ tail).
  by rewrite !upsert_batches_app, embed_events_no_upsert.
Qed.

Lemma embed_events_upsert_failed pages oks :
  existsb upsert_failed (embed_events pages oks) = false.
Proof.
  revert oks; induction pages as [|t pages IH]; intros [|ok oks]; try done.
  cbn. apply IH.
Qed.

Lemma upsert_failed_parse_embed fname content pages oks tail :
  existsb upsert_failed (EvParse fname content :: embed_events pages oks ++ tail)
  = existsb upsert_failed tail.
Proof. cbn. by rewrite existsb_app, embed_events_upsert_failed. Qed.

(** Taking a run of upload_file apart: its path, with the events it added
    written out. *)
Ltac upload_paths H :=
  let P := fresh "Hpath" in
  match type of H with
  | upload_file ?env ?sid ?file ?w = _ =>
      pose proof (upload_file_paths env sid file w) as P
  end;
  rewrite H in P; cbn [fst snd] in P;
  inversion P; clear P; subst;
  repeat match goal with
         | x := _ |- _ => subst x
         | H1 : ?x = DP_Json _, H2 : ?x = DP_Json _ |- _ =>
             rewrite H1 in H2; injection H2 as <-
         | H1 : ?x = Some _, H2 : ?x = Some _ |- _ =>
             rewrite H1 in H2; injection H2 as <-
         | H1 : ?x = Some _, H2 : ?x = None |- _ =>
             rewrite H1 in H2; discriminate H2
         end;
  rewrite ?new_events_refl, ?new_events_app_assoc, ?new_events_app;
  cbn [app VECTOR_STORES uuid_count trace].

(** ** Ingestion under partial embedding failure *)

(** C1, as amended.  When parsing yields n pages, embedding raises for
    exactly k of them with k < n, and the upsert goes through, upload_file
    returns the page count n and records a FileRecord whose pages field is
    n, the number of pages parsed; the one batch it upserts holds n - k
    points. *)
Theorem upload_file_records_parsed_pages env store_id file w meta content j out w' :
  VECTOR_STORES w !! store_id = Some meta →
  upload_read file = Some content →
  dp_response env (trace w) (upload_filename file) content = DP_Json j →
  upload_file env store_id file w = (out, w') →
  let n := length (normalize_pages j) in
  let k := embed_failures (new_events w w') in
  (k < n)%nat →
  existsb upsert_failed (new_events w w') = false →
  ∃ file_id points,
    out = Returned (file_id, n) ∧
    files <$> VECTOR_STORES w' !! store_id
      = Some (<[file_id := mkFileRecord (upload_filename file) n]> (files meta)) ∧
    upsert_batches (new_events w w') = [points] ∧
    length points = (n - k)%nat.
Proof.
  intros Hstore Hread Hdp Hrun n k. subst n k.
  upload_paths Hrun.
  - (* the parser gave no page *)
    rewrite Hdp in *. match goal with H : normalize_pages _ = [] |- _ => rewrite H end.
    cbn. lia.
  - (* every embedding call raised *)
    rewrite <-(app_nil_r (embed_events _ _)).
    rewrite embed_failures_parse_embed by done.
    pose proof (filter_id_negb_length oks) as Hsum.
    match goal with H : List.filter id oks = [] |- _ => rewrite H in Hsum end.
    cbn in Hsum. lia.
  - (* the upsert raised *)
    intros _. rewrite upsert_failed_parse_embed. cbn. done.
  - (* ingested *)
    intros Hk _.
    rewrite embed_failures_parse_embed in * by done.
    rewrite upsert_batches_parse_embed. cbn.
    eexists _, points. split_and!; try done.
    + rewrite lookup_alter_eq, Hstore. done.
    + pose proof (filter_id_negb_length oks). lia.
Qed.

(** C3.  When the batch upsert of upload_file raises, the request fails
    with the 500 of the storing step (a BackingStoreError) and the registry
    is what it was before the request: no FileRecord is recorded. *)
Theorem upload_file_upsert_failure env store_id file w out w' :
  upload_file env store_id file w = (out, w') →
  existsb upsert_failed (new_events w w') = true →
  ∃ e, out = Raised e ∧
       e = HTTPException 500 "Failed to store embeddings" ∧
       error_class e = Some BackingStoreError ∧
       VECTOR_STORES w' = VECTOR_STORES w.
Proof.
  intros Hrun. upload_paths Hrun;
    rewrite ?upsert_failed_parse_embed; cbn; try done.
  - by rewrite embed_events_upsert_failed.
  - intros _. eexists. by split_and!.
Qed.

(** C4.  Once the parser has given at least one page, upload_file sends
    every page to the embeddings endpoint, in page order, whether or not
    earlier calls raised.  The request fails with the 500 of the embedding
    step (an EmbeddingError) exactly when every one of these calls raised,
    and then the registry is unchanged and no upsert was issued. *)
Theorem upload_file_embedding_failures env store_id file w meta content j out w' :
  VECTOR_STORES w !! store_id = Some meta →
  upload_read file = Some content →
  dp_response env (trace w) (upload_filename file) content = DP_Json j →
  normalize_pages j ≠ [] →
  upload_file env store_id file w = (out, w') →
  let new := new_events w w' in
  let n := length (normalize_pages j) in
  embed_inputs new = normalize_pages j ∧
  ((∃ e, out = Raised e ∧ error_class e = Some EmbeddingError)
     ↔ embed_failures new = n) ∧
  (embed_failures new = n →
     out = Raised (HTTPException 500 "No embeddings generated") ∧
     VECTOR_STORES w' = VECTOR_STORES w ∧
     upsert_batches new = []).
Proof.
  intros Hstore Hread Hdp Hpages Hrun new n. subst new n.
  upload_paths Hrun.
  - rewrite Hdp in *. done.
  - rewrite <-(app_nil_r (embed_events _ _)).
    rewrite embed_inputs_parse_embed, embed_failures_parse_embed,
      upsert_batches_parse_embed by done.
    pose proof (filter_id_negb_length oks) as Hsum.
    match goal with H : List.filter id oks = [] |- _ => rewrite H in Hsum end.
    cbn in Hsum. split_and!; try done.
    + split; [intros _; lia|]. intros _. eexists. by split.
  - rewrite embed_inputs_parse_embed, embed_failures_parse_embed,
      upsert_batches_parse_embed by done.
    pose proof (filter_id_negb_length oks) as Hsum.
    assert (length points ≠ 0)%nat by by destruct points.
    split_and!; try done.
    + split; [|lia]. by intros (e & [= <-] & ?).
    + lia.
  - rewrite embed_inputs_parse_embed, embed_failures_parse_embed,
      upsert_batches_parse_embed by done.
    pose proof (filter_id_negb_length oks) as Hsum.
    assert (length points ≠ 0)%nat by by destruct points.
    split_and!; try done.
    + split; [|lia]. by intros (e & [=] & ?).
    + lia.
Qed.

(** ** The parser response, page by page *)

Lemma truthy_spec s : truthy s = true ↔ s ≠ "".
Proof. by destruct s. Qed.

Lemma truthy_false s : truthy s = false ↔ s = "".
Proof. by destruct s. Qed.

Section Grouping.
Implicit Types (pages_map : list (Z * list string)) (els : list Element).

Lemma getitem_setdefault_append pg html pages_map p :
  getitem p (setdefault_append pg html pages_map)
  = if decide (pg = p) then getitem p pages_map ++ [html]
    else getitem p pages_map.
Proof.
  induction pages_map as [|[k v] rest IH]; cbn.
  - repeat case_decide; done.
  - destruct (decide (k = pg)) as [->|Hk]; cbn.
    + repeat case_decide; done.
    + rewrite IH. repeat case_decide; congruence.
Qed.

Lemma keys_setdefault_append pg html pages_map :
  (setdefault_append pg html pages_map).*1
  = if decide (pg ∈ pages_map.*1) then pages_map.*1 else pages_map.*1 ++ [pg].
Proof.
  induction pages_map as [|[k v] rest IH]; cbn.
  - case_decide as Hin; [by apply elem_of_nil in Hin|done].
  - destruct (decide (k = pg)) as [->|Hk]; cbn.
    + rewrite decide_True by left. done.
    + rewrite IH. destruct (decide (pg ∈ rest.*1)) as [Hin|Hin].
      * rewrite decide_True by by right. done.
      * rewrite decide_False; [done|].
        intros [?|?]%elem_of_cons; congruence.
Qed.

Lemma htmls_on_page_cons p el els :
  htmls_on_page p (el :: els)
  = if decide (element_page el = p ∧ element_html el ≠ "")
    then element_html el :: htmls_on_page p els
    else htmls_on_page p els.
Proof. unfold htmls_on_page. rewrite filter_cons. by case_decide. Qed.

(** After the loop, [pages_map[p]] is what was there plus the content of
    the elements of page [p], in order. *)
Lemma getitem_group p els : ∀ pages_map,
  getitem p (foldl group_element pages_map els)
  = getitem p pages_map ++ htmls_on_page p els.
Proof.
  induction els as [|el els IH]; intros pages_map; cbn [foldl].
  - by rewrite app_nil_r.
  - rewrite IH, htmls_on_page_cons. unfold group_element.
    destruct (truthy (element_html el)) eqn:Hhtml.
    + apply truthy_spec in Hhtml.
      rewrite getitem_setdefault_append.
      destruct (decide (element_page el = p)) as [Hp|Hp].
      * rewrite decide_True by done. by rewrite <-app_assoc.
      * rewrite decide_False by tauto. done.
    + apply truthy_false in Hhtml.
      rewrite decide_False by tauto. done.
Qed.

(** The keys of the dict after the loop: those it had, and the pages of
    the elements that render something. *)
Lemma keys_group p els : ∀ pages_map,
  p ∈ (foldl group_element pages_map els).*1
  ↔ p ∈ pages_map.*1
    ∨ ∃ el, el ∈ els ∧ element_page el = p ∧ element_html el ≠ "".
Proof.
  induction els as [|el els IH]; intros pages_map; cbn [foldl].
  - split; [by left|]. intros [?|(el & Hel & _)]; [done|].
    by apply elem_of_nil in Hel.
  - rewrite IH. unfold group_element.
    destruct (truthy (element_html el)) eqn:Hhtml.
    + apply truthy_spec in Hhtml. rewrite keys_setdefault_append.
      split.
      * intros [Hin|(el' & Hel' & ?)].
        -- case_decide; [by left|].
           apply elem_of_app in Hin as [?| ->%list_elem_of_singleton]; [by left|].
           right. exists el. split; [left|done].
        -- right. exists el'. split; [by right|done].
      * intros [Hin|(el' & Hel' & Hp & Hh)].
        -- left. case_decide; [done|]. apply elem_of_app. by left.
        -- apply elem_of_cons in Hel' as [-> |Hel'].
           ++ left. case_decide; [by subst|].
              apply elem_of_app. right. subst. by apply list_elem_of_singleton.
           ++ right. by exists el'.
    + apply truthy_false in Hhtml. split.
      * intros [?|(el' & Hel' & ?)]; [by left|].
        right. exists el'. split; [by right|done].
      * intros [?|(el' & Hel' & Hp & Hh)]; [by left|].
        apply elem_of_cons in Hel' as [-> |Hel']; [done|].
        right. by exists el'.
Qed.

(** A dict has no key twice. *)
Lemma keys_group_NoDup els : ∀ pages_map,
  NoDup pages_map.*1 → NoDup (foldl group_element pages_map els).*1.
Proof.
  induction els as [|el els IH]; intros pages_map Hnd; cbn [foldl]; [done|].
  apply IH. unfold group_element.
  destruct (truthy (element_html el)); [|done].
  rewrite keys_setdefault_append. case_decide; [done|].
  apply NoDup_app. split_and!; [done| |apply NoDup_singleton].
  intros x Hx ->%list_elem_of_singleton. done.
Qed.

(** Ascending order over distinct keys is strictly ascending. *)
Lemma StronglySorted_le_lt (l : list Z) :
  StronglySorted Z.le l → NoDup l → StronglySorted Z.lt l.
Proof.
  induction 1 as [|x l Hsorted IH Hall]; intros Hnd; [constructor|].
  apply NoDup_cons in Hnd as [Hx Hnd].
  constructor; [by apply IH|].
  apply Forall_forall. intros y Hy.
  specialize (proj1 (Forall_forall _ _) Hall y Hy) as Hle.
  assert (x ≠ y) by (intros ->; done). lia.
Qed.

Lemma sorted_strict (keys : list Z) :
  NoDup keys → StronglySorted Z.lt (sorted keys).
Proof.
  intros Hnd. apply StronglySorted_le_lt.
  - apply (StronglySorted_merge_sort _).
  - unfold sorted. by rewrite merge_sort_Permutation.
Qed.

Lemma elem_of_sorted p (keys : list Z) : p ∈ sorted keys ↔ p ∈ keys.
Proof. unfold sorted. by rewrite merge_sort_Permutation. Qed.

(** The pages built from a list of elements: one page per page number
    that has rendered content, in strictly ascending page-number order,
    each the content of its elements joined line by line. *)
Lemma pages_of_elements_grouped els :
  ∃ keys,
    StronglySorted Z.lt keys ∧
    (∀ p, p ∈ keys
          ↔ ∃ el, el ∈ els ∧ element_page el = p ∧ element_html el ≠ "") ∧
    pages_of_elements els = page_text els <$> keys.
Proof.
  exists (sorted (foldl group_element [] els).*1). split_and!.
  - apply sorted_strict, keys_group_NoDup. constructor.
  - intros p. rewrite elem_of_sorted, keys_group. cbn.
    split; [|by right]. intros [Hin|?]; [|done]. by apply elem_of_nil in Hin.
  - unfold pages_of_elements, page_text. apply map_ext. intros p.
    by rewrite getitem_group.
Qed.
End Grouping.

(** *** The loop against the fields *)

Lemma rendered_element el :
  rendered el = if truthy (element_html el)
                then Some (element_page el, element_html el)
                else None.
Proof.
  unfold rendered, element_html, element_page.
  destruct (el_content el) as [c|]; [|done].
  destruct (c_html c) as [[|a h]|]; done.
Qed.

Lemma rendered_fields el p h :
  rendered el = Some (p, h)
  ↔ ∃ c, el_content el = Some c ∧ c_html c = Some h ∧ h ≠ "" ∧
         default 1 (el_page el) = p.
Proof.
  unfold rendered. split.
  - destruct (el_content el) as [c|]; [|done].
    destruct (c_html c) as [h'|] eqn:Hhtml; [|done].
    case_decide; [done|]. intros [= <- <-]. by exists c.
  - intros (c & -> & -> & Hh & <-). by rewrite decide_False.
Qed.

Lemma htmls_on_page_rendered p els : htmls_on_page p els = rendered_on_page p els.
Proof.
  induction els as [|el els IH]; [done|].
  rewrite htmls_on_page_cons. cbn [rendered_on_page omap list_omap].
  fold (rendered_on_page p els). rewrite <-IH, rendered_element.
  destruct (truthy (element_html el)) eqn:Hhtml.
  - apply truthy_spec in Hhtml.
    destruct (decide (element_page el = p)) as [Hp|Hp].
    + by rewrite decide_True.
    + by rewrite decide_False by tauto.
  - apply truthy_false in Hhtml. by rewrite decide_False by tauto.
Qed.

Lemma elem_of_page_numbers p els :
  p ∈ page_numbers els ↔ ∃ el h, el ∈ els ∧ rendered el = Some (p, h).
Proof.
  unfold page_numbers.
  rewrite merge_sort_Permutation, elem_of_remove_dups, list_elem_of_fmap.
  split.
  - intros ([q h] & -> & (el & Hel & Hr)%list_elem_of_omap). by exists el, h.
  - intros (el & h & Hel & Hr). exists (p, h). split; [done|].
    apply list_elem_of_omap. by exists el.
Qed.

Lemma page_numbers_sorted els : StronglySorted Z.lt (page_numbers els).
Proof.
  apply StronglySorted_le_lt.
  - apply (StronglySorted_merge_sort _).
  - unfold page_numbers. rewrite merge_sort_Permutation. apply NoDup_remove_dups.
Qed.

Lemma strictly_ascending_NoDup (l : list Z) : StronglySorted Z.lt l → NoDup l.
Proof.
  induction 1 as [|x l Hsorted IH Hall]; constructor; [|done].
  intros Hx. apply (proj1 (Forall_forall _ _) Hall) in Hx. lia.
Qed.

(** Strictly ascending lists with the same members are the same list. *)
Lemma StronglySorted_lt_ext (l1 l2 : list Z) :
  StronglySorted Z.lt l1 → StronglySorted Z.lt l2 →
  (∀ p, p ∈ l1 ↔ p ∈ l2) → l1 = l2.
Proof.
  intros H1 H2 Hmem.
  assert (AntiSymm (=) Z.lt) by (intros x y ??; lia).
  apply (StronglySorted_unique Z.lt); [done..|].
  apply NoDup_Permutation; [by apply strictly_ascending_NoDup..|done].
Qed.

(** The dict-and-sorted loop of upload_file computes the grouping. *)
Lemma pages_of_elements_grouped_pages els : pages_of_elements els = grouped_pages els.
Proof.
  destruct (pages_of_elements_grouped els) as (keys & Hsorted & Hkeys & ->).
  unfold grouped_pages.
  replace keys with (page_numbers els).
  - apply map_ext. intros p. unfold page_text. by rewrite htmls_on_page_rendered.
  - apply StronglySorted_lt_ext; [apply page_numbers_sorted|done|].
    intros p. rewrite elem_of_page_numbers, Hkeys. split.
    + intros (el & h & Hel & Hr). exists el. split; [done|].
      rewrite rendered_element in Hr.
      destruct (truthy (element_html el)) eqn:Hhtml; [|done].
      injection Hr as <- _. by apply truthy_spec in Hhtml.
    + intros (el & Hel & <- & Hh). exists el, (element_html el). split; [done|].
      rewrite rendered_element. apply truthy_spec in Hh. by rewrite Hh.
Qed.

Lemma content_html_single_page content :
  (if truthy (content_html content) then [content_html content] else [])
  = single_page content.
Proof.
  unfold content_html, single_page, or_else.
  destruct content as [c|]; [|done].
  destruct (c_html c) as [[|a h]|], (c_text c) as [[|b t]|]; done.
Qed.

Lemma normalize_pages_by_fields j : normalize_pages j = pages_by_fields j.
Proof.
  unfold normalize_pages, pages_by_fields.
  destruct (js_elements j) as [[|el els]|].
  - apply content_html_single_page.
  - apply pages_of_elements_grouped_pages.
  - apply content_html_single_page.
Qed.

(** C5.  How upload_file turns the parser's JSON into pages, stated on the
    fields of the response.  With a non-empty list of elements, an element
    renders the html of its content when that html is there and not empty,
    on its page number (1 if it names none); there is one page per page
    number on which something is rendered, in strictly ascending
    page-number order, and the page is what its elements render, in response
    order, joined line by line.  Otherwise there is at most one page: the
    html of the top-level content if it is not empty, or else its text if
    that is not empty.  These pages are what the embedding step receives, in
    order, and when there is none the request fails with the 500 of the
    parsing step (a ParseError) and the registry is unchanged. *)
Theorem upload_file_normalizes_parser_response
    env store_id file w meta content j out w' :
  VECTOR_STORES w !! store_id = Some meta →
  upload_read file = Some content →
  dp_response env (trace w) (upload_filename file) content = DP_Json j →
  upload_file env store_id file w = (out, w') →
  let pages := normalize_pages j in
  pages = pages_by_fields j ∧
  (∀ el els, js_elements j = Some (el :: els) →
     StronglySorted Z.lt (page_numbers (el :: els)) ∧
     (∀ p, p ∈ page_numbers (el :: els)
           ↔ ∃ e c h, e ∈ el :: els ∧ el_content e = Some c ∧
                      c_html c = Some h ∧ h ≠ "" ∧ default 1 (el_page e) = p) ∧
     pages = (λ p, String.concat newline (rendered_on_page p (el :: els)))
               <$> page_numbers (el :: els)) ∧
  (js_elements j = None ∨ js_elements j = Some [] →
     (∀ c h, js_content j = Some c → c_html c = Some h → h ≠ "" → pages = [h]) ∧
     (∀ c t, js_content j = Some c → c_html c = None ∨ c_html c = Some "" →
             c_text c = Some t → t ≠ "" → pages = [t]) ∧
     (∀ c, js_content j = Some c → c_html c = None ∨ c_html c = Some "" →
           c_text c = None ∨ c_text c = Some "" → pages = []) ∧
     (js_content j = None → pages = [])) ∧
  embed_inputs (new_events w w') = pages ∧
  (pages = [] →
     ∃ e, out = Raised e ∧
          e = HTTPException 500 "Document parsing failed" ∧
          error_class e = Some ParseError ∧
          VECTOR_STORES w' = VECTOR_STORES w).
Proof.
  intros Hstore Hread Hdp Hrun pages. subst pages. split_and!.
  - apply normalize_pages_by_fields.
  - intros el els Hels. split_and!.
    + apply page_numbers_sorted.
    + intros p. rewrite elem_of_page_numbers. split.
      * intros (e & h & He & (c & ? & ? & ? & ?)%rendered_fields). by exists e, c, h.
      * intros (e & c & h & He & ? & ? & ? & ?). exists e, h. split; [done|].
        apply rendered_fields. by exists c.
    + rewrite normalize_pages_by_fields. unfold pages_by_fields. by rewrite Hels.
  - intros Hnone. rewrite normalize_pages_by_fields. unfold pages_by_fields.
    assert (match js_elements j with
            | Some (el :: els) => grouped_pages (el :: els)
            | _ => single_page (js_content j)
            end = single_page (js_content j)) as ->
      by (by destruct Hnone as [-> | ->]).
    unfold single_page. split_and!.
    + intros c h -> -> Hh. by destruct h.
    + intros c t -> Hhtml -> Ht. destruct Hhtml as [-> | ->]; by destruct t.
    + intros c -> Hhtml Htext.
      destruct Hhtml as [-> | ->], Htext as [-> | ->]; done.
    + by intros ->.
  - upload_paths Hrun.
    + rewrite Hdp in *. cbn. done.
    + rewrite <-(app_nil_r (embed_events _ _)).
      by rewrite embed_inputs_parse_embed.
    + by rewrite embed_inputs_parse_embed.
    + by rewrite embed_inputs_parse_embed.
  - intros Hnone. upload_paths Hrun; try done.
    + eexists. by split_and!.
    + exfalso. rewrite Hnone in *. destruct oks; [|done]. by destruct points.
    + exfalso. rewrite Hnone in *. destruct oks; [|done]. by destruct points.
Qed.

(** ** The registry endpoints, run *)

Lemma alter_lookup_insert (f : Meta → Meta) store_id meta (r : gmap string Meta) :
  r !! store_id = Some meta → alter f store_id r = <[store_id := f meta]> r.
Proof.
  intros Hstore. apply map_eq. intros i.
  destruct (decide (store_id = i)) as [<-|Hne].
  - by rewrite lookup_alter_eq, lookup_insert_eq, Hstore.
  - by rewrite lookup_alter_ne, lookup_insert_ne.
Qed.

(** create_vector_store: the three ways out. *)
Lemma create_vector_store_run env req w :
  let store_id := uuid4 env (uuid_count w) in
  let coll_name := "vs_" +:+ store_id in
  let c1 := qdrant.recreate_collection coll_name (create_dimension req)
              (create_distance req) in
  let c2 := qdrant.create_payload_index coll_name "file" "keyword" in
  create_vector_store env req w =
    if qdrant_raises env (trace w) c1 then
      (Raised (HTTPException 500 "Failed to create vector store"),
       mkWorld (VECTOR_STORES w) (S (uuid_count w)) (trace w ++ [EvQdrant c1 false]))
    else if qdrant_raises env (trace w ++ [EvQdrant c1 true]) c2 then
      (Raised (HTTPException 500 "Failed to create vector store"),
       mkWorld (VECTOR_STORES w) (S (uuid_count w))
               (trace w ++ [EvQdrant c1 true; EvQdrant c2 false]))
    else
      (Returned (store_id, create_name req),
       mkWorld (<[store_id := mkMeta (create_name req) coll_name
                                (create_dimension req) (create_distance req) ∅]>
                  (VECTOR_STORES w))
               (S (uuid_count w))
               (trace w ++ [EvQdrant c1 true; EvQdrant c2 true])).
Proof.
  intros store_id coll_name c1 c2. unfold create_vector_store. run.
  fold store_id. fold coll_name. fold c1. fold c2.
  destruct (qdrant_raises env (trace w) c1); run; [done|].
  destruct (qdrant_raises env (trace w ++ [EvQdrant c1 true]) c2); run;
    by rewrite <-app_assoc.
Qed.

(** The name a PATCH leaves: [if req.name: meta["name"] = req.name]. *)
Lemma update_vector_store_run env store_id req w meta :
  VECTOR_STORES w !! store_id = Some meta →
  let meta1 := match update_name req with
               | Some n => if truthy n then with_name n meta else meta
               | None => meta
               end in
  update_vector_store env store_id req w =
    match update_distance req with
    | Some d =>
        if bool_decide (d ≠ distance meta) then
          let c1 := qdrant.recreate_collection (collection meta) (dimension meta) d in
          let c2 := qdrant.create_payload_index (collection meta) "file" "keyword" in
          if qdrant_raises env (trace w) c1 then
            (Raised (HTTPException 500 "Failed to update vector store"),
             mkWorld (<[store_id := meta1]> (VECTOR_STORES w)) (uuid_count w)
                     (trace w ++ [EvQdrant c1 false]))
          else if qdrant_raises env (trace w ++ [EvQdrant c1 true]) c2 then
            (Raised (HTTPException 500 "Failed to update vector store"),
             mkWorld (<[store_id := meta1]> (VECTOR_STORES w)) (uuid_count w)
                     (trace w ++ [EvQdrant c1 true; EvQdrant c2 false]))
          else
            (Returned (store_id, with_distance d meta1),
             mkWorld (<[store_id := with_distance d meta1]> (VECTOR_STORES w))
                     (uuid_count w)
                     (trace w ++ [EvQdrant c1 true; EvQdrant c2 true]))
        else
          (Returned (store_id, meta1),
           mkWorld (<[store_id := meta1]> (VECTOR_STORES w)) (uuid_count w) (trace w))
    | None =>
        (Returned (store_id, meta1),
         mkWorld (<[store_id := meta1]> (VECTOR_STORES w)) (uuid_count w) (trace w))
    end.
Proof.
  intros Hstore meta1. subst meta1.
  unfold update_vector_store. run. rewrite Hstore.
  destruct (update_name req) as [n|]; [destruct (truthy n)|]; run.
  all: rewrite ?lookup_alter_eq, ?Hstore;
         cbn [fmap option_fmap option_map]; run;
         cbn [with_name distance collection dimension].
  all: destruct (update_distance req) as [d|];
         [destruct (bool_decide (d ≠ distance meta))|]; run.
  all: repeat match goal with
         | |- context [qdrant_raises ?e ?h ?c] =>
             destruct (qdrant_raises e h c); run
         end.
  all: rewrite ?lookup_alter_eq, ?lookup_alter_eq, ?Hstore;
         cbn [fmap option_fmap option_map]; run;
         rewrite <-?app_assoc; cbn [app].
  all: rewrite <-?alter_compose, ?(alter_lookup_insert _ _ _ _ Hstore),
         ?(insert_id _ _ _ Hstore), ?world_eta; try done.
  rewrite (alter_lookup_insert _ _ (with_name n meta)) by apply lookup_insert_eq.
  by rewrite insert_insert_eq.
Qed.

(** delete_vector_store pops the entry before it calls Qdrant. *)
Lemma delete_vector_store_run env store_id w :
  delete_vector_store env store_id w =
    match VECTOR_STORES w !! store_id with
    | None =>
        (Raised (HTTPException 404 "Vector store not found"),
         mkWorld (delete store_id (VECTOR_STORES w)) (uuid_count w) (trace w))
    | Some meta =>
        let c := qdrant.delete_collection (collection meta) in
        if qdrant_raises env (trace w) c then
          (Raised (HTTPException 500 "Failed to delete vector store"),
           mkWorld (delete store_id (VECTOR_STORES w)) (uuid_count w)
                   (trace w ++ [EvQdrant c false]))
        else
          (Returned "deleted",
           mkWorld (delete store_id (VECTOR_STORES w)) (uuid_count w)
                   (trace w ++ [EvQdrant c true]))
    end.
Proof.
  unfold delete_vector_store. run.
  destruct (VECTOR_STORES w !! store_id) as [meta|]; run; [|done].
  destruct (qdrant_raises env (trace w) _); run; done.
Qed.

(** ** Creating and reading back a store *)

(** C6.  When the creation of the collection, or of its payload index,
    raises, create_vector_store fails with its 500 (a BackingStoreError) and
    the registry is what it was: no entry is added. *)
Theorem create_vector_store_failure env req w out w' :
  create_vector_store env req w = (out, w') →
  existsb qdrant_failed (new_events w w') = true →
  ∃ e, out = Raised e ∧
       e = HTTPException 500 "Failed to create vector store" ∧
       error_class e = Some BackingStoreError ∧
       VECTOR_STORES w' = VECTOR_STORES w.
Proof.
  rewrite create_vector_store_run.
  repeat case_match; intros [= <- <-]; rewrite new_events_app; cbn; try done.
  all: intros _; eexists; by split_and!.
Qed.

(** With Qdrant answering, create_vector_store returns. *)
Lemma create_vector_store_returns env req w :
  (∀ h c, qdrant_raises env h c = false) →
  ∃ w', create_vector_store env req w
        = (Returned (uuid4 env (uuid_count w), create_name req), w').
Proof.
  intros Hok. rewrite create_vector_store_run, !Hok. by eexists.
Qed.

(** C7.  Taking [uuid.uuid4] never to repeat a value, and every id of the
    registry to have come from it: when create_vector_store returns, the id
    it returns was not in the registry before, and get_vector_store on that
    id gives the requested name, dimension and distance. *)
Theorem create_then_get_vector_store env req w store_id n w' :
  Inj (=) (=) (uuid4 env) →
  ids_issued env w →
  create_vector_store env req w = (Returned (store_id, n), w') →
  VECTOR_STORES w !! store_id = None ∧
  n = create_name req ∧
  ∃ meta,
    get_vector_store store_id w' = (Returned (store_id, meta), w') ∧
    name meta = create_name req ∧
    dimension meta = create_dimension req ∧
    distance meta = create_distance req.
Proof.
  intros Hinj Hissued. rewrite create_vector_store_run.
  repeat case_match; intros [= <- <- <-]. split_and!; [|done|].
  - destruct (VECTOR_STORES w !! uuid4 env (uuid_count w)) as [m|] eqn:Hm; [|done].
    destruct (Hissued (uuid4 env (uuid_count w))) as (i & Hlt & Heq); [by eexists|].
    apply Hinj in Heq. lia.
  - eexists. unfold get_vector_store. run. rewrite lookup_insert_eq. done.
Qed.

(** ** Queries *)

(** query_vectors only adds to the trace. *)
Lemma query_vectors_frame env store_id req w :
  VECTOR_STORES (query_vectors env store_id req w).2 = VECTOR_STORES w ∧
  uuid_count (query_vectors env store_id req w).2 = uuid_count w.
Proof.
  unfold query_vectors. run.
  destruct (VECTOR_STORES w !! store_id) as [meta|]; run; [|done].
  destruct (embed_response env (trace w) settings.embed_model_query (query req));
    run; [|done].
  destruct (qdrant_raises env _ _); run; done.
Qed.

(** C8.  query_vectors leaves the registry as it found it, whatever the
    outcome of the request: not found, embedding failure, search failure or
    hits. *)
Theorem query_vectors_registry_unchanged env store_id req w :
  VECTOR_STORES (query_vectors env store_id req w).2 = VECTOR_STORES w.
Proof. apply query_vectors_frame. Qed.

(** ** Deleting and updating a store *)

(** C2, as the code has it.  When the drop of the collection raises,
    delete_vector_store fails with its 500 (a BackingStoreError), and the
    store is gone from the registry all the same: the entry was popped
    before Qdrant was called. *)
Theorem delete_vector_store_drop_failure env store_id w meta out w' :
  VECTOR_STORES w !! store_id = Some meta →
  delete_vector_store env store_id w = (out, w') →
  existsb qdrant_failed (new_events w w') = true →
  ∃ e, out = Raised e ∧
       e = HTTPException 500 "Failed to delete vector store" ∧
       error_class e = Some BackingStoreError ∧
       VECTOR_STORES w' = delete store_id (VECTOR_STORES w) ∧
       VECTOR_STORES w' !! store_id = None.
Proof.
  intros Hstore. rewrite delete_vector_store_run, Hstore. cbn zeta.
  case_match; intros [= <- <-]; rewrite new_events_app; cbn; [|done].
  intros _. eexists. split_and!; try done. apply lookup_delete_eq.
Qed.

(** C9, as amended.  When a PATCH carries a non-empty name and a distance
    other than the recorded one, and the recreation of the collection (or
    of its index) raises, update_vector_store fails with its 500 (a
    BackingStoreError); the registry entry already has the new name, and
    still has the old distance. *)
Theorem update_vector_store_not_atomic env store_id req w meta n d out w' :
  VECTOR_STORES w !! store_id = Some meta →
  update_name req = Some n →
  n ≠ "" →
  update_distance req = Some d →
  d ≠ distance meta →
  update_vector_store env store_id req w = (out, w') →
  existsb qdrant_failed (new_events w w') = true →
  ∃ e, out = Raised e ∧
       e = HTTPException 500 "Failed to update vector store" ∧
       error_class e = Some BackingStoreError ∧
       VECTOR_STORES w' = <[store_id := with_name n meta]> (VECTOR_STORES w) ∧
       name <$> VECTOR_STORES w' !! store_id = Some n ∧
       distance <$> VECTOR_STORES w' !! store_id = Some (distance meta).
Proof.
  intros Hstore Hname Hn Hdist Hd.
  rewrite (update_vector_store_run env store_id req w meta Hstore), Hname, Hdist.
  apply truthy_spec in Hn. rewrite Hn, bool_decide_eq_true_2 by done. cbn zeta.
  repeat case_match; intros [= <- <-]; rewrite new_events_app; cbn; try done.
  all: intros _; eexists; split_and!; try done; by rewrite lookup_insert_eq.
Qed.

(** C10, as amended.  When a PATCH carries the distance the store already
    has, update_vector_store returns without calling Qdrant (the trace is
    unchanged, so the collection is not recreated); distance, dimension,
    collection and files of the entry stay, and the name becomes the
    requested one when a non-empty name was sent and stays otherwise. *)
Theorem update_vector_store_same_distance env store_id req w meta :
  VECTOR_STORES w !! store_id = Some meta →
  update_distance req = Some (distance meta) →
  ∃ meta' w',
    update_vector_store env store_id req w = (Returned (store_id, meta'), w') ∧
    trace w' = trace w ∧
    VECTOR_STORES w' = <[store_id := meta']> (VECTOR_STORES w) ∧
    name meta' = match update_name req with
                 | Some n => if decide (n = "") then name meta else n
                 | None => name meta
                 end ∧
    collection meta' = collection meta ∧
    dimension meta' = dimension meta ∧
    distance meta' = distance meta ∧
    files meta' = files meta.
Proof.
  intros Hstore Hdist.
  rewrite (update_vector_store_run env store_id req w meta Hstore), Hdist.
  rewrite bool_decide_eq_false_2 by (intros H; by apply H).
  eexists _, _. split; [done|]. cbn.
  destruct (update_name req) as [[|a n]|]; cbn; by split_and!.
Qed.

(** ** Store ids come from uuid4 *)

Lemma ids_issued_initial env : ids_issued env initial_world.
Proof. intros store_id [m Hm]. cbn in Hm. by rewrite lookup_empty in Hm. Qed.

Lemma ids_issued_step env w w' :
  ids_issued env w →
  (uuid_count w ≤ uuid_count w')%nat →
  (∀ store_id, is_Some (VECTOR_STORES w' !! store_id) →
     is_Some (VECTOR_STORES w !! store_id) ∨
     ∃ i, (i < uuid_count w')%nat ∧ uuid4 env i = store_id) →
  ids_issued env w'.
Proof.
  intros Hissued Hle Hdom store_id Hsome.
  destruct (Hdom _ Hsome) as [Hold|?]; [|done].
  destruct (Hissued _ Hold) as (i & ? & ?). exists i. split; [lia|done].
Qed.

Lemma ids_issued_create env req w :
  ids_issued env w → ids_issued env (create_vector_store env req w).2.
Proof.
  intros Hissued. rewrite create_vector_store_run. cbn zeta.
  repeat case_match; cbn [snd]; (eapply ids_issued_step; [done|cbn; lia|]); cbn.
  1,2: by left.
  intros store_id Hsome.
  destruct (decide (uuid4 env (uuid_count w) = store_id)) as [<-|Hne].
  - right. exists (uuid_count w). split; [lia|done].
  - left. by rewrite lookup_insert_ne in Hsome.
Qed.

Lemma ids_issued_update env store_id req w :
  ids_issued env w → ids_issued env (update_vector_store env store_id req w).2.
Proof.
  intros Hissued.
  destruct (VECTOR_STORES w !! store_id) as [meta|] eqn:Hstore.
  - rewrite (update_vector_store_run env store_id req w meta Hstore). cbn zeta.
    repeat case_match; cbn [snd]; (eapply ids_issued_step; [done|cbn; lia|]); cbn.
    all: intros i Hsome; left;
      (destruct (decide (store_id = i)) as [<-|Hne];
       [by eexists|by rewrite lookup_insert_ne in Hsome]).
  - unfold update_vector_store. run. by rewrite Hstore.
Qed.

Lemma ids_issued_delete env store_id w :
  ids_issued env w → ids_issued env (delete_vector_store env store_id w).2.
Proof.
  intros Hissued. rewrite delete_vector_store_run. cbn zeta.
  repeat case_match; cbn [snd]; (eapply ids_issued_step; [done|cbn; lia|]); cbn.
  all: intros i [x Hx]; left; apply lookup_delete_Some in Hx as [_ Hx]; by eexists.
Qed.

Lemma ids_issued_upload env store_id file w :
  ids_issued env w → ids_issued env (upload_file env store_id file w).2.
Proof.
  intros Hissued.
  destruct (upload_file env store_id file w) as [out w'] eqn:Hrun. cbn [snd].
  upload_paths Hrun; try done.
  all: eapply ids_issued_step; [done|cbn; lia|]; cbn; try by left.
  intros i [m Hm]. left.
  destruct (decide (store_id = i)) as [<-|Hne]; [by eexists|].
  rewrite lookup_alter_ne in Hm by done. by eexists.
Qed.

Lemma ids_issued_query env store_id req w :
  ids_issued env w → ids_issued env (query_vectors env store_id req w).2.
Proof.
  intros Hissued.
  destruct (query_vectors_frame env store_id req w) as [Hreg Hcount].
  eapply ids_issued_step; [done|lia|]. intros i. rewrite Hreg. by left.
Qed.

Lemma ids_issued_delete_file env store_id file_id w :
  ids_issued env w → ids_issued env (delete_file env store_id file_id w).2.
Proof.
  intros Hissued.
  assert (uuid_count (delete_file env store_id file_id w).2 = uuid_count w ∧
          ∀ i, is_Some (VECTOR_STORES (delete_file env store_id file_id w).2 !! i) →
               is_Some (VECTOR_STORES w !! i)) as [Hcount Hdom].
  { unfold delete_file. run.
    destruct (VECTOR_STORES w !! store_id) as [meta|] eqn:Hstore; cbn; [|done].
    destruct (files meta !! file_id) as [file_meta|]; run; [|done].
    rewrite Hstore. run.
    destruct (qdrant_raises env _ _); run; [done|]. split; [done|].
    intros i [m Hm].
    destruct (decide (store_id = i)) as [<-|Hne]; [by eexists|].
    rewrite lookup_alter_ne in Hm by done. by eexists. }
  eapply ids_issued_step; [done|lia|]. intros i Hi. left. by apply Hdom.
Qed.

(** ** The theorems at work on a concrete deployment *)

Lemma run_eta {A} (r : Outcome A * World) : r = (r.1, r.2).
Proof. by destruct r. Qed.

Lemma scenario_ids_issued env :
  uuid4 env = pretty → ids_issued env Scenario.world.
Proof.
  intros Huuid store_id [m Hm]. cbn in Hm.
  apply lookup_singleton_Some in Hm as [<- _].
  exists 0%nat. split; [cbn; lia|]. by rewrite Huuid.
Qed.

(** C1 as the specification states it fails on this ingestion: two pages
    are parsed and the embedding of one of them raises, yet upload_file
    returns 2 and records 2 pages, with one point upserted. *)
Lemma upload_file_page_count_counterexample :
  let r := upload_file Scenario.flaky_embedder "0" Scenario.document Scenario.world in
  let n := length (normalize_pages Scenario.two_pages) in
  let k := embed_failures (new_events Scenario.world r.2) in
  n = 2%nat ∧ k = 1%nat ∧
  r.1 = Returned ("2", 2%nat) ∧
  (VECTOR_STORES r.2 !! "0" ≫= λ m, files m !! "2")
    = Some (mkFileRecord "doc.pdf" 2) ∧
  length <$> upsert_batches (new_events Scenario.world r.2) = [1%nat] ∧
  ¬ (∃ file_id, r.1 = Returned (file_id, (n - k)%nat)) ∧
  ¬ (∃ file_id f, (VECTOR_STORES r.2 !! "0" ≫= λ m, files m !! file_id) = Some f ∧
                  pages f = (n - k)%nat).
Proof.
  intros r n k. split_and!; try (vm_compute; reflexivity).
  - intros [file_id H]. vm_compute in H. discriminate.
  - intros (file_id & f & Hf & Hpages).
    assert (VECTOR_STORES r.2 !! "0"
            = Some (mkMeta "old" "vs_0" 4 COSINE
                      {["2" := mkFileRecord "doc.pdf" 2]})) as Hr
      by (vm_compute; reflexivity).
    rewrite Hr in Hf. cbn in Hf.
    apply lookup_singleton_Some in Hf as [_ <-].
    vm_compute in Hpages. discriminate.
Qed.

Lemma upload_file_records_parsed_pages_witness :
  let r := upload_file Scenario.flaky_embedder "0" Scenario.document Scenario.world in
  ∃ file_id points,
    r.1 = Returned (file_id, 2%nat) ∧
    files <$> VECTOR_STORES r.2 !! "0"
      = Some (<[file_id := mkFileRecord "doc.pdf" 2]> ∅) ∧
    upsert_batches (new_events Scenario.world r.2) = [points] ∧
    length points = 1%nat.
Proof.
  intros r.
  apply (upload_file_records_parsed_pages Scenario.flaky_embedder "0"
           Scenario.document Scenario.world Scenario.store [] Scenario.two_pages
           r.1 r.2).
  - vm_compute; reflexivity.
  - reflexivity.
  - reflexivity.
  - apply run_eta.
  - vm_compute. lia.
  - vm_compute; reflexivity.
Defined.

Lemma upload_file_upsert_failure_witness :
  let r := upload_file Scenario.qdrant_down "0" Scenario.document Scenario.world in
  ∃ e, r.1 = Raised e ∧
       e = HTTPException 500 "Failed to store embeddings" ∧
       error_class e = Some BackingStoreError ∧
       VECTOR_STORES r.2 = VECTOR_STORES Scenario.world.
Proof.
  intros r.
  apply (upload_file_upsert_failure Scenario.qdrant_down "0" Scenario.document
           Scenario.world r.1 r.2).
  - apply run_eta.
  - vm_compute; reflexivity.
Defined.

Lemma upload_file_embedding_failures_witness :
  let r := upload_file Scenario.embedder_down "0" Scenario.document Scenario.world in
  let new := new_events Scenario.world r.2 in
  let n := length (normalize_pages Scenario.two_pages) in
  embed_inputs new = normalize_pages Scenario.two_pages ∧
  ((∃ e, r.1 = Raised e ∧ error_class e = Some EmbeddingError)
     ↔ embed_failures new = n) ∧
  (embed_failures new = n →
     r.1 = Raised (HTTPException 500 "No embeddings generated") ∧
     VECTOR_STORES r.2 = VECTOR_STORES Scenario.world ∧
     upsert_batches new = []).
Proof.
  intros r.
  apply (upload_file_embedding_failures Scenario.embedder_down "0"
           Scenario.document Scenario.world Scenario.store [] Scenario.two_pages
           r.1 r.2).
  - vm_compute; reflexivity.
  - reflexivity.
  - reflexivity.
  - vm_compute. discriminate.
  - apply run_eta.
Defined.

Lemma upload_file_normalizes_parser_response_witness :
  let r := upload_file Scenario.healthy "0" Scenario.document Scenario.world in
  let els := default [] (js_elements Scenario.two_pages) in
  let pages := ["alpha"; "beta" +:+ newline +:+ "gamma"] in
  normalize_pages Scenario.two_pages = pages ∧
  pages_by_fields Scenario.two_pages = pages ∧
  page_numbers els = [1; 2] ∧
  rendered_on_page 1 els = ["alpha"] ∧
  rendered_on_page 2 els = ["beta"; "gamma"] ∧
  rendered_on_page 3 els = [] ∧
  embed_inputs (new_events Scenario.world r.2) = pages ∧
  (∃ file_id, r.1 = Returned (file_id, 2%nat)).
Proof.
  intros r els pages.
  destruct (upload_file_normalizes_parser_response Scenario.healthy "0"
              Scenario.document Scenario.world Scenario.store []
              Scenario.two_pages r.1 r.2)
    as (Hfields & Hgrouped & _ & Hinputs & _).
  - vm_compute; reflexivity.
  - reflexivity.
  - reflexivity.
  - apply run_eta.
  - destruct (Hgrouped _ _ eq_refl) as (_ & _ & Hpages).
    assert (pages_by_fields Scenario.two_pages = pages) as Hcomputed
      by (vm_compute; reflexivity).
    split_and!.
    + by rewrite Hfields.
    + done.
    + vm_compute; reflexivity.
    + vm_compute; reflexivity.
    + vm_compute; reflexivity.
    + vm_compute; reflexivity.
    + by rewrite Hinputs, Hfields.
    + exists "3". vm_compute; reflexivity.
Defined.

(** The two pages of [Scenario.two_pages], page 1 first. *)
Example normalize_two_pages :
  normalize_pages Scenario.two_pages = ["alpha"; Scenario.second_page].
Proof. vm_compute; reflexivity. Qed.

(** A response that yields no page ends the request at the parsing step. *)
Example upload_file_no_pages :
  let r := upload_file Scenario.empty_parse "0" Scenario.document Scenario.world in
  normalize_pages Scenario.no_pages = [] ∧
  r.1 = Raised (HTTPException 500 "Document parsing failed") ∧
  VECTOR_STORES r.2 = VECTOR_STORES Scenario.world ∧
  new_events Scenario.world r.2 = [EvParse "doc.pdf" []].
Proof. intros r. split_and!; vm_compute; reflexivity. Qed.

Lemma create_vector_store_failure_witness :
  let r := create_vector_store Scenario.qdrant_down (mkCreateReq "docs" 4 DOT)
             Scenario.world in
  ∃ e, r.1 = Raised e ∧
       e = HTTPException 500 "Failed to create vector store" ∧
       error_class e = Some BackingStoreError ∧
       VECTOR_STORES r.2 = VECTOR_STORES Scenario.world.
Proof.
  intros r.
  apply (create_vector_store_failure Scenario.qdrant_down (mkCreateReq "docs" 4 DOT)
           Scenario.world r.1 r.2).
  - apply run_eta.
  - vm_compute; reflexivity.
Defined.

Lemma create_then_get_vector_store_witness :
  let req := mkCreateReq "docs" 4 DOT in
  let r := create_vector_store Scenario.healthy req Scenario.world in
  VECTOR_STORES Scenario.world !! "1" = None ∧
  "docs" = create_name req ∧
  ∃ meta,
    get_vector_store "1" r.2 = (Returned ("1", meta), r.2) ∧
    name meta = "docs" ∧ dimension meta = 4 ∧ distance meta = DOT.
Proof.
  intros req r.
  apply (create_then_get_vector_store Scenario.healthy req Scenario.world
           "1" "docs" r.2).
  - exact pretty_nat_inj.
  - apply scenario_ids_issued. reflexivity.
  - vm_compute; reflexivity.
Defined.

Lemma delete_vector_store_drop_failure_witness :
  let r := delete_vector_store Scenario.qdrant_down "0" Scenario.world in
  ∃ e, r.1 = Raised e ∧
       e = HTTPException 500 "Failed to delete vector store" ∧
       error_class e = Some BackingStoreError ∧
       VECTOR_STORES r.2 = delete "0" (VECTOR_STORES Scenario.world) ∧
       VECTOR_STORES r.2 !! "0" = None.
Proof.
  intros r.
  apply (delete_vector_store_drop_failure Scenario.qdrant_down "0" Scenario.world
           Scenario.store r.1 r.2).
  - vm_compute; reflexivity.
  - apply run_eta.
  - vm_compute; reflexivity.
Defined.

(** C9 as stated fails on a PATCH that sends the empty string as the new
    name: the recreation raises and the request fails with its 500, but the
    entry keeps its old name, the sent name was never written. *)
Lemma update_vector_store_empty_name_counterexample :
  let req := mkUpdateReq (Some "") (Some DOT) in
  let r := update_vector_store Scenario.qdrant_down "0" req Scenario.world in
  VECTOR_STORES Scenario.world !! "0" = Some Scenario.store ∧
  update_name req = Some "" ∧
  update_distance req = Some DOT ∧
  DOT ≠ distance Scenario.store ∧
  existsb qdrant_failed (new_events Scenario.world r.2) = true ∧
  r.1 = Raised (HTTPException 500 "Failed to update vector store") ∧
  name <$> VECTOR_STORES r.2 !! "0" = Some "old" ∧
  name <$> VECTOR_STORES r.2 !! "0" ≠ update_name req.
Proof.
  intros req r. split_and!; try (vm_compute; reflexivity); try done.
Qed.

Lemma update_vector_store_not_atomic_witness :
  let req := mkUpdateReq (Some "new") (Some DOT) in
  let r := update_vector_store Scenario.qdrant_down "0" req Scenario.world in
  ∃ e, r.1 = Raised e ∧
       e = HTTPException 500 "Failed to update vector store" ∧
       error_class e = Some BackingStoreError ∧
       VECTOR_STORES r.2
         = <[ "0" := with_name "new" Scenario.store ]> (VECTOR_STORES Scenario.world) ∧
       name <$> VECTOR_STORES r.2 !! "0" = Some "new" ∧
       distance <$> VECTOR_STORES r.2 !! "0" = Some COSINE.
Proof.
  intros req r.
  apply (update_vector_store_not_atomic Scenario.qdrant_down "0" req Scenario.world
           Scenario.store "new" DOT r.1 r.2).
  - vm_compute; reflexivity.
  - reflexivity.
  - discriminate.
  - reflexivity.
  - discriminate.
  - apply run_eta.
  - vm_compute; reflexivity.
Defined.

(** C10 as stated fails on a PATCH that sends the empty string as the new
    name together with the current distance: the request returns, Qdrant is
    not called, and the rename that was asked for does not take effect. *)
Lemma update_vector_store_same_distance_counterexample :
  let req := mkUpdateReq (Some "") (Some COSINE) in
  let r := update_vector_store Scenario.healthy "0" req Scenario.world in
  VECTOR_STORES Scenario.world !! "0" = Some Scenario.store ∧
  update_name req = Some "" ∧
  update_distance req = Some (distance Scenario.store) ∧
  r.1 = Returned ("0", Scenario.store) ∧
  new_events Scenario.world r.2 = [] ∧
  name <$> VECTOR_STORES r.2 !! "0" = Some "old" ∧
  name <$> VECTOR_STORES r.2 !! "0" ≠ update_name req.
Proof.
  intros req r. split_and!; try (vm_compute; reflexivity).
  assert (name <$> VECTOR_STORES r.2 !! "0" = Some "old") as ->
    by (vm_compute; reflexivity).
  done.
Qed.

Lemma update_vector_store_same_distance_witness :
  let req := mkUpdateReq (Some "new") (Some COSINE) in
  ∃ meta' w',
    update_vector_store Scenario.healthy "0" req Scenario.world
      = (Returned ("0", meta'), w') ∧
    trace w' = trace Scenario.world ∧
    VECTOR_STORES w' = <[ "0" := meta' ]> (VECTOR_STORES Scenario.world) ∧
    name meta' = "new" ∧
    collection meta' = "vs_0" ∧
    dimension meta' = 4 ∧
    distance meta' = COSINE ∧
    files meta' = ∅.
Proof.
  intros req.
  apply (update_vector_store_same_distance Scenario.healthy "0" req Scenario.world
           Scenario.store).
  - vm_compute; reflexivity.
  - reflexivity.
Defined.

(** * Beyond the claims: the rest of the endpoints *)

(** ** delete_file and query_vectors, run *)

Lemma delete_file_run env store_id file_id w :
  delete_file env store_id file_id w =
    match VECTOR_STORES w !! store_id with
    | None => (Raised (HTTPException 404 "File not found"), w)
    | Some meta =>
        match files meta !! file_id with
        | None => (Raised (HTTPException 404 "File not found"), w)
        | Some file_meta =>
            let c := qdrant.delete (collection meta) "file" (filename file_meta) in
            if qdrant_raises env (trace w) c then
              (Raised (HTTPException 500 "Failed to delete file vectors"),
               mkWorld (VECTOR_STORES w) (uuid_count w) (trace w ++ [EvQdrant c false]))
            else
              (Returned "deleted",
               mkWorld (<[store_id := without_file file_id meta]> (VECTOR_STORES w))
                       (uuid_count w) (trace w ++ [EvQdrant c true]))
        end
    end.
Proof.
  unfold delete_file. run.
  destruct (VECTOR_STORES w !! store_id) as [meta|] eqn:Hstore; cbn; [|done].
  destruct (files meta !! file_id) as [file_meta|]; run; [|done].
  rewrite Hstore. run.
  destruct (qdrant_raises env _ _); run; [done|].
  by rewrite (alter_lookup_insert _ _ meta).
Qed.

Lemma query_vectors_run env store_id req w :
  query_vectors env store_id req w =
    match VECTOR_STORES w !! store_id with
    | None => (Raised (HTTPException 404 "Vector store not found"), w)
    | Some meta =>
        let model := settings.embed_model_query in
        match embed_response env (trace w) model (query req) with
        | None =>
            (Raised (HTTPException 500 "Failed to embed query"),
             mkWorld (VECTOR_STORES w) (uuid_count w)
                     (trace w ++ [EvEmbed model (query req) false]))
        | Some q_vec =>
            let h := trace w ++ [EvEmbed model (query req) true] in
            let c := qdrant.search (collection meta) q_vec (top_k req) in
            if qdrant_raises env h c then
              (Raised (HTTPException 500 "Search operation failed"),
               mkWorld (VECTOR_STORES w) (uuid_count w) (h ++ [EvQdrant c false]))
            else
              (Returned (qdrant_hits env h c),
               mkWorld (VECTOR_STORES w) (uuid_count w) (h ++ [EvQdrant c true]))
        end
    end.
Proof.
  unfold query_vectors. run.
  destruct (VECTOR_STORES w !! store_id) as [meta|]; run; [|done].
  destruct (embed_response env (trace w) settings.embed_model_query (query req));
    run; [|done].
  destruct (qdrant_raises env _ _); run; done.
Qed.

(** ** Unknown ids *)

(** X1.  Every endpoint addressed to a store id that is not in the registry
    raises the 404 and leaves the world as it was: nothing is written, no
    uuid is drawn and no collaborator is called. *)
Theorem unknown_store_is_not_found env store_id w :
  VECTOR_STORES w !! store_id = None →
  let e404 := HTTPException 404 "Vector store not found" in
  get_vector_store store_id w = (Raised e404, w) ∧
  (∀ req, update_vector_store env store_id req w = (Raised e404, w)) ∧
  delete_vector_store env store_id w = (Raised e404, w) ∧
  (∀ file, upload_file env store_id file w = (Raised e404, w)) ∧
  list_files store_id w = (Raised e404, w) ∧
  (∀ req, query_vectors env store_id req w = (Raised e404, w)) ∧
  (∀ file_id,
     get_file store_id file_id w = (Raised (HTTPException 404 "File not found"), w) ∧
     delete_file env store_id file_id w
       = (Raised (HTTPException 404 "File not found"), w)).
Proof.
  intros Hnone e404. subst e404. split_and!; intros.
  - unfold get_vector_store. run. by rewrite Hnone.
  - unfold update_vector_store. run. by rewrite Hnone.
  - rewrite delete_vector_store_run, Hnone, delete_id, world_eta by done. done.
  - unfold upload_file. run. by rewrite Hnone.
  - unfold list_files. run. by rewrite Hnone.
  - by rewrite query_vectors_run, Hnone.
  - split.
    + unfold get_file. run. by rewrite Hnone.
    + by rewrite delete_file_run, Hnone.
Qed.

(** ** Deleting a file *)

(** X2.  A file id that the store does not hold: get_file and delete_file
    raise the 404 "File not found", and delete_file neither calls Qdrant nor
    touches the registry. *)
Theorem unknown_file_is_not_found env store_id file_id w meta :
  VECTOR_STORES w !! store_id = Some meta →
  files meta !! file_id = None →
  get_file store_id file_id w = (Raised (HTTPException 404 "File not found"), w) ∧
  delete_file env store_id file_id w
    = (Raised (HTTPException 404 "File not found"), w).
Proof.
  intros Hstore Hfile. split.
  - unfold get_file. run. rewrite Hstore. cbn. by rewrite Hfile.
  - by rewrite delete_file_run, Hstore, Hfile.
Qed.

(** X3.  When the filtered delete raises, delete_file fails with its 500
    and the FileRecord stays in the registry: get_file still returns it, and
    the same request sent again, once Qdrant answers, deletes it. *)
Theorem delete_file_failure_keeps_record env store_id file_id w meta file_meta out w' :
  VECTOR_STORES w !! store_id = Some meta →
  files meta !! file_id = Some file_meta →
  delete_file env store_id file_id w = (out, w') →
  existsb qdrant_failed (new_events w w') = true →
  out = Raised (HTTPException 500 "Failed to delete file vectors") ∧
  VECTOR_STORES w' = VECTOR_STORES w ∧
  get_file store_id file_id w' = (Returned file_meta, w') ∧
  (qdrant_raises env (trace w')
     (qdrant.delete (collection meta) "file" (filename file_meta)) = false →
   (delete_file env store_id file_id w').1 = Returned "deleted").
Proof.
  intros Hstore Hfile. rewrite delete_file_run, Hstore, Hfile. cbn zeta.
  case_match; intros [= <- <-]; rewrite new_events_app; cbn; [|done].
  intros _. split_and!; try done.
  - unfold get_file. run. rewrite Hstore. cbn. by rewrite Hfile.
  - intros Hok. rewrite delete_file_run. cbn [VECTOR_STORES trace].
    rewrite Hstore, Hfile. cbn zeta. by rewrite Hok.
Qed.

(** X4.  When delete_file returns, it has issued one Qdrant call, the
    delete filtered on the payload key "file" with the record's filename in
    the store's collection (the file id plays no part in the filter); the
    record is gone, so get_file raises the 404; the other records of the
    store, its other fields and the other stores are as before. *)
Theorem delete_file_removes_record env store_id file_id w meta file_meta s w' :
  VECTOR_STORES w !! store_id = Some meta →
  files meta !! file_id = Some file_meta →
  delete_file env store_id file_id w = (Returned s, w') →
  qdrant_calls (new_events w w')
    = [qdrant.delete (collection meta) "file" (filename file_meta)] ∧
  VECTOR_STORES w' = <[store_id := without_file file_id meta]> (VECTOR_STORES w) ∧
  get_file store_id file_id w' = (Raised (HTTPException 404 "File not found"), w') ∧
  list_files store_id w' = (Returned (delete file_id (files meta)), w').
Proof.
  intros Hstore Hfile. rewrite delete_file_run, Hstore, Hfile. cbn zeta.
  case_match; intros [= <- <-]. rewrite new_events_app. split_and!; try done.
  - unfold get_file. run. rewrite lookup_insert_eq. cbn.
    by rewrite lookup_delete_eq.
  - unfold list_files. run. by rewrite lookup_insert_eq.
Qed.

(** ** Deleting a store *)

(** X5.  delete_vector_store on a store of the registry issues one Qdrant
    call, the drop of that store's collection, and whatever that call does
    the store is gone afterwards: get_vector_store and a second
    delete_vector_store both raise the 404.  The other stores are
    untouched. *)
Theorem delete_vector_store_removes_store env store_id w meta :
  VECTOR_STORES w !! store_id = Some meta →
  let r := delete_vector_store env store_id w in
  qdrant_calls (new_events w r.2) = [qdrant.delete_collection (collection meta)] ∧
  get_vector_store store_id r.2
    = (Raised (HTTPException 404 "Vector store not found"), r.2) ∧
  delete_vector_store env store_id r.2
    = (Raised (HTTPException 404 "Vector store not found"), r.2) ∧
  (∀ other, other ≠ store_id →
     VECTOR_STORES r.2 !! other = VECTOR_STORES w !! other).
Proof.
  intros Hstore r. subst r. rewrite delete_vector_store_run, Hstore. cbn zeta.
  case_match; cbn [snd]; rewrite new_events_app.
  all: split_and!; [done| | |by intros; apply lookup_delete_ne].
  all: try (unfold get_vector_store; run; by rewrite lookup_delete_eq).
  all: rewrite delete_vector_store_run; cbn [VECTOR_STORES uuid_count trace].
  all: by rewrite lookup_delete_eq, delete_delete_eq.
Qed.

(** ** Uploading, then reading back *)

(** X6.  When upload_file returns a file id and a page count, get_file on
    that id returns the uploaded filename with that page count, the store's
    name, collection, dimension and distance are as before, its other
    records are as before, and so are the other stores. *)
Theorem upload_file_then_get_file env store_id file w meta file_id n w' :
  VECTOR_STORES w !! store_id = Some meta →
  upload_file env store_id file w = (Returned (file_id, n), w') →
  get_file store_id file_id w'
    = (Returned (mkFileRecord (upload_filename file) n), w') ∧
  VECTOR_STORES w' !! store_id
    = Some (mkMeta (name meta) (collection meta) (dimension meta) (distance meta)
              (<[file_id := mkFileRecord (upload_filename file) n]> (files meta))) ∧
  (∀ other, other ≠ store_id →
     VECTOR_STORES w' !! other = VECTOR_STORES w !! other).
Proof.
  intros Hstore Hrun. upload_paths Hrun.
  assert (∀ f, alter f store_id (VECTOR_STORES w) !! store_id = Some (f meta)) as Hl
    by (intros; by rewrite lookup_alter_eq, Hstore).
  split_and!.
  - unfold get_file. run. rewrite Hl. cbn. by rewrite lookup_insert_eq.
  - by rewrite Hl.
  - intros other Hne. by rewrite lookup_alter_ne.
Qed.

(** ** The points of a batch *)

Lemma embed_oks_app evs1 evs2 : embed_oks (evs1 ++ evs2) = embed_oks evs1 ++ embed_oks evs2.
Proof. unfold embed_oks. by rewrite omap_app. Qed.

Lemma embed_models_app evs1 evs2 :
  embed_models (evs1 ++ evs2) = embed_models evs1 ++ embed_models evs2.
Proof. unfold embed_models. by rewrite omap_app. Qed.

Lemma qdrant_calls_app evs1 evs2 :
  qdrant_calls (evs1 ++ evs2) = qdrant_calls evs1 ++ qdrant_calls evs2.
Proof. unfold qdrant_calls. by rewrite omap_app. Qed.

Lemma embed_events_oks pages oks :
  length oks = length pages → embed_oks (embed_events pages oks) = oks.
Proof.
  revert oks; induction pages as [|t pages IH]; intros [|ok oks] Hlen;
    try done; cbn in *.
  f_equal. apply IH. lia.
Qed.

Lemma embed_events_models pages oks :
  length oks = length pages →
  embed_models (embed_events pages oks)
  = replicate (length pages) settings.embed_model_passage.
Proof.
  revert oks; induction pages as [|t pages IH]; intros [|ok oks] Hlen;
    try done; cbn in *.
  f_equal. apply IH. lia.
Qed.

Lemma embed_events_qdrant_calls pages oks :
  qdrant_calls (embed_events pages oks) = [].
Proof.
  revert oks; induction pages as [|t pages IH]; intros [|ok oks]; try done.
  cbn. apply IH.
Qed.

Lemma successful_indices_length idx oks :
  length (successful_indices idx oks) = length (List.filter id oks).
Proof.
  revert idx; induction oks as [|[] oks IH]; intros idx; cbn; [done| |done].
  by rewrite IH.
Qed.

(** The loop again, with what it puts in the points: the page index of each
    page whose call returned, the file name, and the next uuids in order. *)
Lemma embed_pages_points env fname pages :
  ∀ idx points w, ∃ new_points oks,
    embed_pages env fname idx pages points w =
      (Returned (points ++ new_points),
       mkWorld (VECTOR_STORES w) (uuid_count w + length new_points)
               (trace w ++ embed_events pages oks)) ∧
    length oks = length pages ∧
    payload_page <$> new_points = successful_indices idx oks ∧
    payload_file <$> new_points = replicate (length new_points) fname ∧
    point_id <$> new_points
      = uuid4 env <$> seq (uuid_count w) (length new_points).
Proof.
  induction pages as [|text pages IH]; intros idx points w.
  - exists [], []. cbn. rewrite !app_nil_r, Nat.add_0_r, world_eta.
    by split_and!.
  - cbn [embed_pages]. run.
    destruct (embed_response env (trace w) settings.embed_model_passage text)
      as [v|] eqn:Hemb; run.
    + set (w1 := mkWorld _ _ _).
      destruct (IH (S idx) (points ++ [mkPoint (uuid4 env (uuid_count w)) v fname idx]) w1)
        as (new_points & oks & Hrun & Hlen & Hpages & Hfiles & Hids).
      exists (mkPoint (uuid4 env (uuid_count w)) v fname idx :: new_points), (true :: oks).
      rewrite Hrun. subst w1; cbn in *. split_and!.
      * rewrite <-!app_assoc. cbn. unfold embed_events.
        do 3 f_equal. lia.
      * by rewrite Hlen.
      * by rewrite Hpages.
      * by rewrite Hfiles.
      * by rewrite Hids.
    + set (w1 := mkWorld _ _ _).
      destruct (IH (S idx) points w1)
        as (new_points & oks & Hrun & Hlen & Hpages & Hfiles & Hids).
      exists new_points, (false :: oks).
      rewrite Hrun. subst w1; cbn in *. split_and!; try done.
      * by rewrite <-app_assoc.
      * by rewrite Hlen.
Qed.

(** upload_file once the parser has given pages: the batch it hands to
    Qdrant, if any, and the embedding calls before it. *)
Lemma upload_file_batch env store_id file w meta content j :
  VECTOR_STORES w !! store_id = Some meta →
  upload_read file = Some content →
  dp_response env (trace w) (upload_filename file) content = DP_Json j →
  normalize_pages j ≠ [] →
  ∃ points oks tail,
    new_events w (upload_file env store_id file w).2
      = EvParse (upload_filename file) content
          :: embed_events (normalize_pages j) oks ++ tail ∧
    length oks = length (normalize_pages j) ∧
    payload_page <$> points = successful_indices 0 oks ∧
    payload_file <$> points = replicate (length points) (upload_filename file) ∧
    point_id <$> points = uuid4 env <$> seq (uuid_count w) (length points) ∧
    match points with
    | [] => tail = []
    | _ :: _ =>
        ∃ ok, tail = [EvQdrant (qdrant.upsert (collection meta) points) ok] ∧
              (upload_file env store_id file w).1
              = if ok
                then Returned (uuid4 env (uuid_count w + length points),
                               length (normalize_pages j))
                else Raised (HTTPException 500 "Failed to store embeddings")
    end.
Proof.
  intros Hstore Hread Hdp Hpages.
  unfold upload_file. run. rewrite Hstore, Hread. run. rewrite Hdp. run.
  destruct (normalize_pages j) as [|page pages] eqn:Hnorm; [done|]. run.
  set (w1 := mkWorld _ _ _).
  destruct (embed_pages_points env (upload_filename file) (page :: pages) 0 [] w1)
    as (points & oks & Hrun & Hlen & Hpg & Hfl & Hids).
  rewrite Hrun. subst w1. cbn [app VECTOR_STORES uuid_count trace] in *.
  rewrite <-(app_assoc (trace w)). cbn [app].
  destruct points as [|pt points]; run.
  - exists [], oks, []. rewrite app_nil_r, new_events_app. by split_and!.
  - rewrite Hstore; run.
    set (pts := pt :: points) in *.
    destruct (qdrant_raises env _ (qdrant.upsert (collection meta) pts)) eqn:Hups; run.
    + exists pts, oks, [EvQdrant (qdrant.upsert (collection meta) pts) false].
      rewrite new_events_app_assoc. cbn [app]. split_and!; try done.
      by exists false.
    + exists pts, oks, [EvQdrant (qdrant.upsert (collection meta) pts) true].
      rewrite new_events_app_assoc. cbn [app]. split_and!; try done.
      by exists true.
Qed.

Lemma embed_oks_parse_embed fname content pages oks tail :
  length oks = length pages →
  embed_oks tail = [] →
  embed_oks (EvParse fname content :: embed_events pages oks ++ tail) = oks.
Proof.
  intros Hlen Htail.
  change (EvParse fname content :: embed_events pages oks ++ tail)
    with ([EvParse fname content] ++ embed_events pages oks ++ tail).
  by rewrite !embed_oks_app, Htail, embed_events_oks, app_nil_r.
Qed.

Lemma embed_models_parse_embed fname content pages oks tail :
  length oks = length pages →
  embed_models tail = [] →
  embed_models (EvParse fname content :: embed_events pages oks ++ tail)
  = replicate (length pages) settings.embed_model_passage.
Proof.
  intros Hlen Htail.
  change (EvParse fname content :: embed_events pages oks ++ tail)
    with ([EvParse fname content] ++ embed_events pages oks ++ tail).
  by rewrite !embed_models_app, Htail, embed_events_models, app_nil_r.
Qed.

Lemma upsert_batches_upsert coll points ok :
  upsert_batches [EvQdrant (qdrant.upsert coll points) ok] = [points].
Proof. done. Qed.

(** X7.  The points upload_file hands to Qdrant carry the uploaded file
    name and the index, counted from 0 over the parsed pages, of the page
    they embed: a page whose embedding raised leaves a gap in the indices,
    the later pages keep theirs.  Every embedding call of the run names the
    passage model. *)
Theorem upload_file_points_payload env store_id file w meta content j points :
  VECTOR_STORES w !! store_id = Some meta →
  upload_read file = Some content →
  dp_response env (trace w) (upload_filename file) content = DP_Json j →
  let new := new_events w (upload_file env store_id file w).2 in
  upsert_batches new = [points] →
  payload_page <$> points = successful_indices 0 (embed_oks new) ∧
  payload_file <$> points = replicate (length points) (upload_filename file) ∧
  length (embed_oks new) = length (normalize_pages j) ∧
  embed_models new
    = replicate (length (normalize_pages j)) settings.embed_model_passage.
Proof.
  intros Hstore Hread Hdp new. subst new.
  destruct (decide (normalize_pages j = [])) as [Hnone|Hpages].
  { destruct (upload_file env store_id file w) as [out w'] eqn:Hrun. cbn [fst snd].
    upload_paths Hrun; try done.
    all: exfalso; rewrite Hnone in *;
      match goal with H : length ?oks = length [] |- _ => destruct oks; [|done] end;
      match goal with H : ?pts ≠ [] |- _ => by destruct pts end. }
  destruct (upload_file_batch env store_id file w meta content j)
    as (pts & oks & tail & -> & Hlen & Hpg & Hfl & Hids & Htail); try done.
  rewrite upsert_batches_parse_embed.
  destruct pts as [|pt pts]; [by subst tail|].
  destruct Htail as (ok & -> & _). rewrite upsert_batches_upsert. intros [= <-].
  rewrite embed_oks_parse_embed, embed_models_parse_embed by done.
  by split_and!.
Qed.

(** X8.  Taking uuid4 never to repeat a value: the points of a batch have
    pairwise distinct ids, and when upload_file returns, the file id it
    returns is none of them. *)
Theorem upload_file_fresh_point_ids env store_id file w meta content j points :
  Inj (=) (=) (uuid4 env) →
  VECTOR_STORES w !! store_id = Some meta →
  upload_read file = Some content →
  dp_response env (trace w) (upload_filename file) content = DP_Json j →
  let r := upload_file env store_id file w in
  upsert_batches (new_events w r.2) = [points] →
  NoDup (point_id <$> points) ∧
  (∀ file_id n, r.1 = Returned (file_id, n) → file_id ∉ point_id <$> points).
Proof.
  intros Hinj Hstore Hread Hdp r. subst r.
  destruct (decide (normalize_pages j = [])) as [Hnone|Hpages].
  { destruct (upload_file env store_id file w) as [out w'] eqn:Hrun. cbn [fst snd].
    upload_paths Hrun; try done.
    all: exfalso; rewrite Hnone in *;
      match goal with H : length ?oks = length [] |- _ => destruct oks; [|done] end;
      match goal with H : ?pts ≠ [] |- _ => by destruct pts end. }
  destruct (upload_file_batch env store_id file w meta content j)
    as (pts & oks & tail & -> & Hlen & Hpg & Hfl & Hids & Htail); try done.
  rewrite upsert_batches_parse_embed.
  destruct pts as [|pt pts]; [by subst tail|].
  destruct Htail as (ok & -> & Hret). rewrite upsert_batches_upsert. intros [= <-].
  rewrite Hids. split.
  - apply (NoDup_fmap_2 _), NoDup_seq.
  - intros file_id n Hout.
    rewrite Hret in Hout. destruct ok; [|done]. injection Hout as <- _.
    intros (i & Heq & Hin)%list_elem_of_fmap.
    apply Hinj in Heq. subst i.
    apply elem_of_seq in Hin. cbn [length] in Hin. lia.
Qed.

(** ** Requests that end before the embedding step *)

(** X9.  An upload whose file cannot be read is answered with the 400
    before anything is sent out.  When the parser cannot be reached,
    answers with an error status or with a body that is not JSON, the
    request fails with the 500 of the parsing step after that one call: no
    embedding is asked for, no uuid is drawn and the registry is as
    before. *)
Theorem upload_file_rejected_early env store_id file w meta :
  VECTOR_STORES w !! store_id = Some meta →
  (upload_read file = None →
   upload_file env store_id file w
     = (Raised (HTTPException 400 "Invalid file upload"), w)) ∧
  (∀ content,
     upload_read file = Some content →
     dp_response env (trace w) (upload_filename file) content = DP_HTTPError ∨
     dp_response env (trace w) (upload_filename file) content = DP_BadJson →
     upload_file env store_id file w
       = (Raised (HTTPException 500 "Document parsing failed"),
          mkWorld (VECTOR_STORES w) (uuid_count w)
                  (trace w ++ [EvParse (upload_filename file) content]))).
Proof.
  intros Hstore. split.
  - intros Hread. unfold upload_file. run. rewrite Hstore, Hread. done.
  - intros content Hread Hdp. unfold upload_file. run. rewrite Hstore, Hread. run.
    destruct Hdp as [-> | ->]; done.
Qed.

(** ** Queries *)

(** X10.  query_vectors on a store of the registry embeds the query text
    once, with the query model (uploads name the passage model, see X7).
    If that call raises, the request fails with "Failed to embed query" and
    Qdrant is not called.  Otherwise it issues one search, in the store's
    collection, with the embedding it got and the limit top_k, and returns
    that search's hits or fails with "Search operation failed".  No uuid is
    drawn. *)
Theorem query_vectors_calls env store_id req w meta :
  VECTOR_STORES w !! store_id = Some meta →
  let r := query_vectors env store_id req w in
  let new := new_events w r.2 in
  embed_models new = [settings.embed_model_query] ∧
  embed_inputs new = [query req] ∧
  uuid_count r.2 = uuid_count w ∧
  match embed_oks new with
  | [false] =>
      r.1 = Raised (HTTPException 500 "Failed to embed query") ∧
      qdrant_calls new = []
  | _ =>
      ∃ q_vec,
        embed_response env (trace w) settings.embed_model_query (query req)
          = Some q_vec ∧
        qdrant_calls new = [qdrant.search (collection meta) q_vec (top_k req)] ∧
        if existsb qdrant_failed new
        then r.1 = Raised (HTTPException 500 "Search operation failed")
        else r.1 = Returned
               (qdrant_hits env
                  (trace w ++ [EvEmbed settings.embed_model_query (query req) true])
                  (qdrant.search (collection meta) q_vec (top_k req)))
  end.
Proof.
  intros Hstore r new. subst new r.
  rewrite query_vectors_run, Hstore. cbn zeta.
  destruct (embed_response env (trace w) settings.embed_model_query (query req))
    as [q_vec|]; [destruct (qdrant_raises env _ _)|]; cbn [fst snd];
    rewrite ?new_events_app_assoc, ?new_events_app; cbn; split_and!; try done.
  all: by eexists.
Qed.

(** ** Updating a store *)

(** X11.  When a PATCH with a distance other than the recorded one
    returns, update_vector_store has issued two Qdrant calls: the
    recreation of the store's own collection with the recorded dimension and
    the new distance, then the payload index on "file".  The entry has the
    new distance; its collection and dimension are as before, and so are
    its FileRecords, which the registry keeps although the collection was
    recreated. *)
Theorem update_vector_store_changes_distance env store_id req w meta d meta' w' :
  VECTOR_STORES w !! store_id = Some meta →
  update_distance req = Some d →
  d ≠ distance meta →
  update_vector_store env store_id req w = (Returned (store_id, meta'), w') →
  qdrant_calls (new_events w w')
    = [qdrant.recreate_collection (collection meta) (dimension meta) d;
       qdrant.create_payload_index (collection meta) "file" "keyword"] ∧
  VECTOR_STORES w' !! store_id = Some meta' ∧
  distance meta' = d ∧
  collection meta' = collection meta ∧
  dimension meta' = dimension meta ∧
  files meta' = files meta ∧
  list_files store_id w' = (Returned (files meta), w').
Proof.
  intros Hstore Hdist Hd.
  rewrite (update_vector_store_run env store_id req w meta Hstore), Hdist.
  rewrite bool_decide_eq_true_2 by done. cbn zeta.
  repeat case_match; intros [= <- <-]; rewrite new_events_app.
  all: split_and!; try done; try apply lookup_insert_eq.
  all: unfold list_files; run; by rewrite lookup_insert_eq.
Qed.

(** X12.  A PATCH that returned can be sent again: the second request
    returns the same metadata, leaves the world as the first one left it,
    and so calls Qdrant no more (the distance it carries is now the
    recorded one). *)
Theorem update_vector_store_idempotent env store_id req w meta' w' :
  update_vector_store env store_id req w = (Returned (store_id, meta'), w') →
  update_vector_store env store_id req w' = (Returned (store_id, meta'), w').
Proof.
  destruct (VECTOR_STORES w !! store_id) as [meta|] eqn:Hstore;
    [|unfold update_vector_store; run; by rewrite Hstore].
  rewrite (update_vector_store_run env store_id req w meta Hstore). cbn zeta.
  set (meta1 := match update_name req with
                | Some n => if truthy n then with_name n meta else meta
                | None => meta
                end).
  assert (∀ m r u t,
            r !! store_id = Some m →
            (match update_name req with
             | Some n => if truthy n then with_name n m else m
             | None => m
             end) = m →
            match update_distance req with
            | Some d => d = distance m
            | None => True
            end →
            update_vector_store env store_id req (mkWorld r u t)
            = (Returned (store_id, m), mkWorld r u t)) as Hagain.
  { intros m r u t Hm Hname Hdist.
    rewrite (update_vector_store_run env store_id req (mkWorld r u t) m Hm), Hname.
    cbn [VECTOR_STORES uuid_count trace]. rewrite insert_id by done.
    destruct (update_distance req) as [d|]; [|done].
    by rewrite bool_decide_eq_false_2 by (intros H; by apply H). }
  assert ((match update_name req with
           | Some n => if truthy n then with_name n meta1 else meta1
           | None => meta1
           end) = meta1) as Hname1.
  { subst meta1. destruct (update_name req) as [n|]; [|done]. by destruct (truthy n). }
  assert (distance meta1 = distance meta) as Hdist1.
  { subst meta1. destruct (update_name req) as [n|]; [|done]. by destruct (truthy n). }
  clearbody meta1.
  destruct (update_distance req) as [d|] eqn:Hdist.
  - destruct (bool_decide (d ≠ distance meta)) eqn:Hne.
    + repeat case_match; intros [= <- <-].
      all: apply Hagain; [apply lookup_insert_eq| |done]; try done.
      all: destruct meta1; unfold with_name, with_distance in *; cbn in *;
        congruence.
    + intros [= <- <-]. apply bool_decide_eq_false in Hne.
      apply Hagain; [apply lookup_insert_eq|done|].
      rewrite Hdist1. by destruct (decide (d = distance meta)).
  - intros [= <- <-]. by apply Hagain; [apply lookup_insert_eq|..].
Qed.

(** ** Creating a store, and what the other endpoints keep *)

(** X13.  Taking uuid4 never to repeat a value, and every id of the
    registry to have come from it: when create_vector_store returns, it has
    issued two Qdrant calls, the creation of the collection named "vs_"
    followed by the new id, with the requested dimension and distance, then
    the payload index on "file"; the new store has that collection and no
    files, and every store that was in the registry is still there,
    unchanged. *)
Theorem create_vector_store_registers env req w store_id n w' :
  Inj (=) (=) (uuid4 env) →
  ids_issued env w →
  create_vector_store env req w = (Returned (store_id, n), w') →
  qdrant_calls (new_events w w')
    = [qdrant.recreate_collection ("vs_" +:+ store_id)
         (create_dimension req) (create_distance req);
       qdrant.create_payload_index ("vs_" +:+ store_id) "file" "keyword"] ∧
  VECTOR_STORES w' !! store_id
    = Some (mkMeta (create_name req) ("vs_" +:+ store_id)
              (create_dimension req) (create_distance req) ∅) ∧
  list_files store_id w' = (Returned ∅, w') ∧
  (∀ other meta, VECTOR_STORES w !! other = Some meta →
                 VECTOR_STORES w' !! other = Some meta).
Proof.
  intros Hinj Hissued. rewrite create_vector_store_run. cbn zeta.
  repeat case_match; intros [= <- <- <-]. rewrite new_events_app.
  split_and!; try done.
  - apply lookup_insert_eq.
  - unfold list_files. run. by rewrite lookup_insert_eq.
  - intros other meta Hother. cbn.
    rewrite lookup_insert_ne; [done|]. intros <-.
    destruct (Hissued (uuid4 env (uuid_count w))) as (i & Hlt & Heq); [by eexists|].
    apply Hinj in Heq. lia.
Qed.

Lemma registry_change_update env store_id req w :
  registry_change (VECTOR_STORES w)
    (VECTOR_STORES (update_vector_store env store_id req w).2).
Proof.
  destruct (VECTOR_STORES w !! store_id) as [meta|] eqn:Hstore;
    [|left; unfold update_vector_store; run; by rewrite Hstore].
  rewrite (update_vector_store_run env store_id req w meta Hstore). cbn zeta.
  right; right.
  repeat case_match; cbn [snd VECTOR_STORES]; eexists store_id, meta, _;
    split_and!; done.
Qed.

Lemma registry_change_delete env store_id w :
  registry_change (VECTOR_STORES w)
    (VECTOR_STORES (delete_vector_store env store_id w).2).
Proof.
  rewrite delete_vector_store_run. cbn zeta. right; left. exists store_id.
  repeat case_match; done.
Qed.

Lemma registry_change_upload env store_id file w :
  registry_change (VECTOR_STORES w)
    (VECTOR_STORES (upload_file env store_id file w).2).
Proof.
  destruct (upload_file env store_id file w) as [out w'] eqn:Hrun. cbn [snd].
  upload_paths Hrun; try by left.
  right; right. eexists store_id, meta, _.
  split_and!; [done|by apply alter_lookup_insert|done..].
Qed.

Lemma registry_change_delete_file env store_id file_id w :
  registry_change (VECTOR_STORES w)
    (VECTOR_STORES (delete_file env store_id file_id w).2).
Proof.
  rewrite delete_file_run.
  destruct (VECTOR_STORES w !! store_id) as [meta|] eqn:Hstore; [|by left].
  destruct (files meta !! file_id) as [file_meta|]; [|by left]. cbn zeta.
  case_match; [by left|].
  right; right. by eexists store_id, meta, _.
Qed.

Lemma registry_change_query env store_id req w :
  registry_change (VECTOR_STORES w)
    (VECTOR_STORES (query_vectors env store_id req w).2).
Proof. left. apply query_vectors_frame. Qed.

Lemma registry_change_backing_kept r r' : registry_change r r' → backing_kept r r'.
Proof.
  intros [->|[(sid & ->)|(sid & m & m' & Hm & -> & Hc & Hd)]] i mi Hi.
  - by exists mi.
  - apply lookup_delete_Some in Hi as [_ Hi]. by exists mi.
  - destruct (decide (sid = i)) as [<-|Hne].
    + rewrite lookup_insert_eq in Hi. injection Hi as <-. by exists m.
    + rewrite lookup_insert_ne in Hi by done. by exists mi.
Qed.

Lemma backing_kept_derived w w' :
  backing_kept (VECTOR_STORES w) (VECTOR_STORES w') →
  collections_derived w → collections_derived w'.
Proof.
  intros Hkept Hderived i mi Hi.
  destruct (Hkept i mi Hi) as (m & Hm & -> & _). by apply Hderived.
Qed.

(** X14.  No endpoint other than create_vector_store adds a store or
    changes the collection name or the dimension of one: after update,
    delete, upload, file deletion or query, every store of the registry was
    there before with the same collection and the same dimension. *)
Theorem endpoints_keep_collection_and_dimension env w :
  (∀ store_id req,
     backing_kept (VECTOR_STORES w)
       (VECTOR_STORES (update_vector_store env store_id req w).2)) ∧
  (∀ store_id,
     backing_kept (VECTOR_STORES w)
       (VECTOR_STORES (delete_vector_store env store_id w).2)) ∧
  (∀ store_id file,
     backing_kept (VECTOR_STORES w)
       (VECTOR_STORES (upload_file env store_id file w).2)) ∧
  (∀ store_id file_id,
     backing_kept (VECTOR_STORES w)
       (VECTOR_STORES (delete_file env store_id file_id w).2)) ∧
  (∀ store_id req,
     backing_kept (VECTOR_STORES w)
       (VECTOR_STORES (query_vectors env store_id req w).2)).
Proof.
  split_and!; intros; apply registry_change_backing_kept.
  - apply registry_change_update.
  - apply registry_change_delete.
  - apply registry_change_upload.
  - apply registry_change_delete_file.
  - apply registry_change_query.
Qed.

(** X15.  If every store's collection is named "vs_" followed by its id,
    that is still so after any endpoint, create_vector_store included:
    the name given at creation is the one every later Qdrant call of the
    store uses. *)
Theorem collections_stay_derived env w :
  collections_derived w →
  (∀ req, collections_derived (create_vector_store env req w).2) ∧
  (∀ store_id req, collections_derived (update_vector_store env store_id req w).2) ∧
  (∀ store_id, collections_derived (delete_vector_store env store_id w).2) ∧
  (∀ store_id file, collections_derived (upload_file env store_id file w).2) ∧
  (∀ store_id file_id, collections_derived (delete_file env store_id file_id w).2) ∧
  (∀ store_id req, collections_derived (query_vectors env store_id req w).2).
Proof.
  intros Hderived. split_and!; intros.
  2-6: eapply backing_kept_derived; [|done]; apply registry_change_backing_kept.
  - rewrite create_vector_store_run. cbn zeta.
    repeat case_match; cbn [snd]; try done.
    intros i mi Hi. cbn in Hi.
    destruct (decide (uuid4 env (uuid_count w) = i)) as [<-|Hne].
    + rewrite lookup_insert_eq in Hi. by injection Hi as <-.
    + rewrite lookup_insert_ne in Hi by done. by apply Hderived.
  - apply registry_change_update.
  - apply registry_change_delete.
  - apply registry_change_upload.
  - apply registry_change_delete_file.
  - apply registry_change_query.
Qed.

(** ** More on the pages of a parser response *)

Lemma concat_cons_nonempty sep x l : x ≠ "" → String.concat sep (x :: l) ≠ "".
Proof. destruct x as [|a x]; [done|]. intros _. by destruct l. Qed.

Lemma htmls_on_page_head p els :
  (∃ el, el ∈ els ∧ element_page el = p ∧ element_html el ≠ "") →
  ∃ x l, htmls_on_page p els = x :: l ∧ x ≠ "".
Proof.
  induction els as [|el els IH]; intros (e & He & Hp & Hh).
  - by apply elem_of_nil in He.
  - rewrite htmls_on_page_cons. case_decide as Hel.
    + eexists _, _. split; [done|]. apply Hel.
    + apply IH. exists e. split; [|done].
      apply elem_of_cons in He as [-> |He]; [|done]. tauto.
Qed.

Lemma StronglySorted_lt_NoDup (l : list Z) : StronglySorted Z.lt l → NoDup l.
Proof.
  induction 1 as [|x l Hsorted IH Hall]; constructor; [|done].
  intros Hx. apply (proj1 (Forall_forall _ _) Hall) in Hx. lia.
Qed.

(** X16.  No page that upload_file goes on with is the empty string, and
    a response with elements gives at most one page per element. *)
Theorem normalize_pages_nonempty_texts j :
  Forall (λ page, page ≠ "") (normalize_pages j) ∧
  (∀ els, js_elements j = Some els → els ≠ [] →
          (length (normalize_pages j) ≤ length els)%nat).
Proof.
  split.
  - unfold normalize_pages.
    destruct (js_elements j) as [[|el els]|].
    2: { destruct (pages_of_elements_grouped (el :: els)) as (keys & _ & Hkeys & ->).
         apply Forall_fmap, Forall_forall. intros p Hp.
         change (page_text (el :: els) p ≠ "").
         apply Hkeys, htmls_on_page_head in Hp as (x & l & Hx & Hne).
         unfold page_text. rewrite Hx. by apply concat_cons_nonempty. }
    all: destruct (truthy (content_html (js_content j))) eqn:Hhtml; [|done].
    all: apply truthy_spec in Hhtml; by repeat constructor.
  - intros els Hels Hne. unfold normalize_pages. rewrite Hels.
    destruct els as [|el els]; [done|].
    destruct (pages_of_elements_grouped (el :: els)) as (keys & Hsorted & Hkeys & ->).
    rewrite length_fmap, <-(length_fmap element_page (el :: els)).
    apply submseteq_length, NoDup_submseteq.
    + by apply StronglySorted_lt_NoDup.
    + intros p (e & He & <- & _)%Hkeys. by apply list_elem_of_fmap_2.
Qed.

(** X17.  A non-empty list of elements shuts the top-level content out:
    when none of the elements renders any html, the response gives no page
    at all, whatever its content field holds.  Without elements, the html
    of the content is the page if it is not empty, and else its text. *)
Theorem normalize_pages_fallback j :
  (∀ els, js_elements j = Some els → els ≠ [] →
          Forall (λ el, element_html el = "") els →
          normalize_pages j = []) ∧
  (js_elements j = None ∨ js_elements j = Some [] →
   ∀ c, js_content j = Some c →
     (∀ h, c_html c = Some h → h ≠ "" → normalize_pages j = [h]) ∧
     (c_html c = None ∨ c_html c = Some "" →
      ∀ t, c_text c = Some t → t ≠ "" → normalize_pages j = [t])).
Proof.
  split.
  - intros els Hels Hne Hall. unfold normalize_pages. rewrite Hels.
    destruct els as [|el els]; [done|].
    destruct (pages_of_elements_grouped (el :: els)) as (keys & _ & Hkeys & ->).
    destruct keys as [|p keys]; [done|]. exfalso.
    destruct (proj1 (Hkeys p)) as (e & He & _ & Hh); [left|].
    by apply (proj1 (Forall_forall _ _) Hall) in He.
  - intros Hnone c Hc. unfold normalize_pages, content_html. rewrite Hc.
    split.
    + intros h Hhtml Hh. rewrite Hhtml.
      destruct Hnone as [-> | ->]; cbn; by destruct h.
    + intros Hhtml t Htext Ht. rewrite Htext.
      destruct Hnone as [-> | ->], Hhtml as [-> | ->]; cbn; by destruct t.
Qed.

(** ** The further theorems at work on the concrete deployment *)

Example uploaded_world :
  VECTOR_STORES Deployment.uploaded !! "0" = Some Deployment.uploaded_store ∧
  uuid_count Deployment.uploaded = 4%nat.
Proof. split; vm_compute; reflexivity. Qed.

Example silent_elements_no_page :
  normalize_pages Deployment.silent_elements = [] ∧
  normalize_pages Deployment.text_only = ["plain text"].
Proof. split; vm_compute; reflexivity. Qed.

Lemma unknown_store_is_not_found_witness :
  let env := Scenario.healthy in
  let w := Scenario.world in
  let e404 := HTTPException 404 "Vector store not found" in
  get_vector_store "9" w = (Raised e404, w) ∧
  (∀ req, update_vector_store env "9" req w = (Raised e404, w)) ∧
  delete_vector_store env "9" w = (Raised e404, w) ∧
  (∀ file, upload_file env "9" file w = (Raised e404, w)) ∧
  list_files "9" w = (Raised e404, w) ∧
  (∀ req, query_vectors env "9" req w = (Raised e404, w)) ∧
  (∀ file_id,
     get_file "9" file_id w = (Raised (HTTPException 404 "File not found"), w) ∧
     delete_file env "9" file_id w
       = (Raised (HTTPException 404 "File not found"), w)).
Proof.
  intros env w.
  apply (unknown_store_is_not_found env "9" w).
  vm_compute; reflexivity.
Defined.

Lemma unknown_file_is_not_found_witness :
  let w := Scenario.world in
  get_file "0" "3" w = (Raised (HTTPException 404 "File not found"), w) ∧
  delete_file Scenario.healthy "0" "3" w
    = (Raised (HTTPException 404 "File not found"), w).
Proof.
  intros w.
  apply (unknown_file_is_not_found Scenario.healthy "0" "3" w Scenario.store).
  - vm_compute; reflexivity.
  - vm_compute; reflexivity.
Defined.

Lemma delete_file_failure_keeps_record_witness :
  let env := Deployment.qdrant_recovers in
  let w := Deployment.uploaded in
  let r := delete_file env "0" "3" w in
  r.1 = Raised (HTTPException 500 "Failed to delete file vectors") ∧
  VECTOR_STORES r.2 = VECTOR_STORES w ∧
  get_file "0" "3" r.2 = (Returned Deployment.uploaded_record, r.2) ∧
  (qdrant_raises env (trace r.2) (qdrant.delete "vs_0" "file" "doc.pdf") = false →
   (delete_file env "0" "3" r.2).1 = Returned "deleted").
Proof.
  intros env w r.
  apply (delete_file_failure_keeps_record env "0" "3" w
           Deployment.uploaded_store Deployment.uploaded_record r.1 r.2).
  - vm_compute; reflexivity.
  - vm_compute; reflexivity.
  - apply run_eta.
  - vm_compute; reflexivity.
Defined.

Lemma delete_file_removes_record_witness :
  let w := Deployment.uploaded in
  let r := delete_file Scenario.healthy "0" "3" w in
  qdrant_calls (new_events w r.2) = [qdrant.delete "vs_0" "file" "doc.pdf"] ∧
  VECTOR_STORES r.2
    = <[ "0" := without_file "3" Deployment.uploaded_store ]> (VECTOR_STORES w) ∧
  get_file "0" "3" r.2 = (Raised (HTTPException 404 "File not found"), r.2) ∧
  list_files "0" r.2
    = (Returned (delete "3" (files Deployment.uploaded_store)), r.2).
Proof.
  intros w r.
  apply (delete_file_removes_record Scenario.healthy "0" "3" w
           Deployment.uploaded_store Deployment.uploaded_record "deleted" r.2).
  - vm_compute; reflexivity.
  - vm_compute; reflexivity.
  - vm_compute; reflexivity.
Defined.

Lemma delete_vector_store_removes_store_witness :
  let w := Scenario.world in
  let r := delete_vector_store Scenario.qdrant_down "0" w in
  qdrant_calls (new_events w r.2) = [qdrant.delete_collection "vs_0"] ∧
  get_vector_store "0" r.2
    = (Raised (HTTPException 404 "Vector store not found"), r.2) ∧
  delete_vector_store Scenario.qdrant_down "0" r.2
    = (Raised (HTTPException 404 "Vector store not found"), r.2) ∧
  (∀ other, other ≠ "0" →
     VECTOR_STORES r.2 !! other = VECTOR_STORES w !! other).
Proof.
  intros w.
  apply (delete_vector_store_removes_store Scenario.qdrant_down "0" w Scenario.store).
  vm_compute; reflexivity.
Defined.

Lemma upload_file_then_get_file_witness :
  let w := Scenario.world in
  let w' := Deployment.uploaded in
  get_file "0" "3" w' = (Returned (mkFileRecord "doc.pdf" 2), w') ∧
  VECTOR_STORES w' !! "0"
    = Some (mkMeta "old" "vs_0" 4 COSINE
              (<[ "3" := mkFileRecord "doc.pdf" 2 ]> ∅)) ∧
  (∀ other, other ≠ "0" →
     VECTOR_STORES w' !! other = VECTOR_STORES w !! other).
Proof.
  intros w w'.
  apply (upload_file_then_get_file Scenario.healthy "0" Scenario.document w
           Scenario.store "3" 2 w').
  - vm_compute; reflexivity.
  - vm_compute; reflexivity.
Defined.

Lemma upload_file_points_payload_witness :
  let r := upload_file Scenario.flaky_embedder "0" Scenario.document Scenario.world in
  let new := new_events Scenario.world r.2 in
  let points := [Deployment.first_point] in
  payload_page <$> points = successful_indices 0 (embed_oks new) ∧
  payload_file <$> points = replicate (length points) "doc.pdf" ∧
  length (embed_oks new) = length (normalize_pages Scenario.two_pages) ∧
  embed_models new
    = replicate (length (normalize_pages Scenario.two_pages))
        settings.embed_model_passage.
Proof.
  intros r new points.
  apply (upload_file_points_payload Scenario.flaky_embedder "0" Scenario.document
           Scenario.world Scenario.store [] Scenario.two_pages points).
  - vm_compute; reflexivity.
  - reflexivity.
  - reflexivity.
  - vm_compute; reflexivity.
Defined.

Lemma upload_file_fresh_point_ids_witness :
  let r := upload_file Scenario.healthy "0" Scenario.document Scenario.world in
  let points := [Deployment.first_point; Deployment.second_point] in
  NoDup (point_id <$> points) ∧
  (∀ file_id n, r.1 = Returned (file_id, n) → file_id ∉ point_id <$> points).
Proof.
  intros r points.
  apply (upload_file_fresh_point_ids Scenario.healthy "0" Scenario.document
           Scenario.world Scenario.store [] Scenario.two_pages points).
  - exact pretty_nat_inj.
  - vm_compute; reflexivity.
  - reflexivity.
  - reflexivity.
  - vm_compute; reflexivity.
Defined.

Lemma upload_file_rejected_early_witness :
  let env := Deployment.parser_down in
  let w := Scenario.world in
  let file := Scenario.document in
  (upload_read file = None →
   upload_file env "0" file w
     = (Raised (HTTPException 400 "Invalid file upload"), w)) ∧
  (∀ content,
     upload_read file = Some content →
     dp_response env (trace w) (upload_filename file) content = DP_HTTPError ∨
     dp_response env (trace w) (upload_filename file) content = DP_BadJson →
     upload_file env "0" file w
       = (Raised (HTTPException 500 "Document parsing failed"),
          mkWorld (VECTOR_STORES w) (uuid_count w)
                  (trace w ++ [EvParse (upload_filename file) content]))).
Proof.
  intros env w file.
  apply (upload_file_rejected_early env "0" file w Scenario.store).
  vm_compute; reflexivity.
Defined.

(** The parser being down, the upload of [Scenario.document] ends at the
    parsing step. *)
Example upload_file_parser_down :
  upload_file Deployment.parser_down "0" Scenario.document Scenario.world
  = (Raised (HTTPException 500 "Document parsing failed"),
     mkWorld (VECTOR_STORES Scenario.world) 1 [EvParse "doc.pdf" []]).
Proof. vm_compute; reflexivity. Qed.

Lemma query_vectors_calls_witness :
  let env := Scenario.healthy in
  let w := Scenario.world in
  let req := mkQueryReq "what is inside" 3 in
  let r := query_vectors env "0" req w in
  let new := new_events w r.2 in
  embed_models new = [settings.embed_model_query] ∧
  embed_inputs new = ["what is inside"] ∧
  uuid_count r.2 = uuid_count w ∧
  match embed_oks new with
  | [false] =>
      r.1 = Raised (HTTPException 500 "Failed to embed query") ∧
      qdrant_calls new = []
  | _ =>
      ∃ q_vec,
        embed_response env (trace w) settings.embed_model_query "what is inside"
          = Some q_vec ∧
        qdrant_calls new = [qdrant.search "vs_0" q_vec 3] ∧
        if existsb qdrant_failed new
        then r.1 = Raised (HTTPException 500 "Search operation failed")
        else r.1 = Returned
               (qdrant_hits env
                  (trace w ++ [EvEmbed settings.embed_model_query "what is inside" true])
                  (qdrant.search "vs_0" q_vec 3))
  end.
Proof.
  intros env w req.
  apply (query_vectors_calls env "0" req w Scenario.store).
  vm_compute; reflexivity.
Defined.

Lemma update_vector_store_changes_distance_witness :
  let w := Scenario.world in
  let req := mkUpdateReq None (Some DOT) in
  let r := update_vector_store Scenario.healthy "0" req w in
  let meta' := with_distance DOT Scenario.store in
  qdrant_calls (new_events w r.2)
    = [qdrant.recreate_collection "vs_0" 4 DOT;
       qdrant.create_payload_index "vs_0" "file" "keyword"] ∧
  VECTOR_STORES r.2 !! "0" = Some meta' ∧
  distance meta' = DOT ∧
  collection meta' = "vs_0" ∧
  dimension meta' = 4 ∧
  files meta' = ∅ ∧
  list_files "0" r.2 = (Returned ∅, r.2).
Proof.
  intros w req r meta'.
  apply (update_vector_store_changes_distance Scenario.healthy "0" req w
           Scenario.store DOT meta' r.2).
  - vm_compute; reflexivity.
  - reflexivity.
  - discriminate.
  - vm_compute; reflexivity.
Defined.

Lemma update_vector_store_idempotent_witness :
  let req := mkUpdateReq (Some "new") (Some DOT) in
  let r := update_vector_store Scenario.healthy "0" req Scenario.world in
  let meta' := with_distance DOT (with_name "new" Scenario.store) in
  update_vector_store Scenario.healthy "0" req r.2 = (Returned ("0", meta'), r.2).
Proof.
  intros req r meta'.
  apply (update_vector_store_idempotent Scenario.healthy "0" req Scenario.world
           meta' r.2).
  vm_compute; reflexivity.
Defined.

Lemma create_vector_store_registers_witness :
  let req := mkCreateReq "docs" 4 DOT in
  let w := Scenario.world in
  let r := create_vector_store Scenario.healthy req w in
  qdrant_calls (new_events w r.2)
    = [qdrant.recreate_collection "vs_1" 4 DOT;
       qdrant.create_payload_index "vs_1" "file" "keyword"] ∧
  VECTOR_STORES r.2 !! "1" = Some (mkMeta "docs" "vs_1" 4 DOT ∅) ∧
  list_files "1" r.2 = (Returned ∅, r.2) ∧
  (∀ other meta, VECTOR_STORES w !! other = Some meta →
                 VECTOR_STORES r.2 !! other = Some meta).
Proof.
  intros req w r.
  apply (create_vector_store_registers Scenario.healthy req w "1" "docs" r.2).
  - exact pretty_nat_inj.
  - apply scenario_ids_issued. reflexivity.
  - vm_compute; reflexivity.
Defined.

Lemma scenario_collections_derived : collections_derived Scenario.world.
Proof.
  intros store_id meta Hm. cbn in Hm.
  by apply lookup_singleton_Some in Hm as [<- <-].
Qed.

Lemma collections_stay_derived_witness :
  let env := Scenario.healthy in
  let w := Scenario.world in
  (∀ req, collections_derived (create_vector_store env req w).2) ∧
  (∀ store_id req, collections_derived (update_vector_store env store_id req w).2) ∧
  (∀ store_id, collections_derived (delete_vector_store env store_id w).2) ∧
  (∀ store_id file, collections_derived (upload_file env store_id file w).2) ∧
  (∀ store_id file_id, collections_derived (delete_file env store_id file_id w).2) ∧
  (∀ store_id req, collections_derived (query_vectors env store_id req w).2).
Proof.
  intros env w.
  apply (collections_stay_derived env w).
  apply scenario_collections_derived.
Defined.

(** ** Two records with one filename, renaming, and where ids come from *)

(** X18.  delete_file selects the vectors by filename only.  For two
    records of a store that carry the same filename, deleting either one
    sends Qdrant the same call and has the same outcome; and once the first
    is deleted, the second is still in the registry, although the filter
    that was sent covers its vectors too. *)
Theorem delete_file_same_filename env store_id w meta f1 f2 r1 r2 :
  VECTOR_STORES w !! store_id = Some meta →
  files meta !! f1 = Some r1 →
  files meta !! f2 = Some r2 →
  f1 ≠ f2 →
  filename r1 = filename r2 →
  let d1 := delete_file env store_id f1 w in
  let d2 := delete_file env store_id f2 w in
  new_events w d1.2 = new_events w d2.2 ∧
  d1.1 = d2.1 ∧
  qdrant_calls (new_events w d1.2)
    = [qdrant.delete (collection meta) "file" (filename r2)] ∧
  get_file store_id f2 d1.2 = (Returned r2, d1.2).
Proof.
  intros Hstore Hf1 Hf2 Hne Hname d1 d2. subst d1 d2.
  rewrite !delete_file_run, Hstore, Hf1, Hf2, Hname. cbn zeta.
  case_match; cbn [fst snd]; rewrite !new_events_app; split_and!; try done.
  - unfold get_file. run. rewrite Hstore. cbn. by rewrite Hf2.
  - unfold get_file. run. rewrite lookup_insert_eq. cbn.
    by rewrite lookup_delete_ne, Hf2.
Qed.

Lemma delete_file_same_filename_witness :
  let env := Scenario.healthy in
  let w := Deployment.uploaded_twice in
  let d1 := delete_file env "0" "3" w in
  let d2 := delete_file env "0" "6" w in
  new_events w d1.2 = new_events w d2.2 ∧
  d1.1 = d2.1 ∧
  qdrant_calls (new_events w d1.2) = [qdrant.delete "vs_0" "file" "doc.pdf"] ∧
  get_file "0" "6" d1.2 = (Returned Deployment.uploaded_record, d1.2).
Proof.
  intros env w.
  apply (delete_file_same_filename env "0" w Deployment.uploaded_twice_store
           "3" "6" Deployment.uploaded_record Deployment.uploaded_record).
  - vm_compute; reflexivity.
  - vm_compute; reflexivity.
  - vm_compute; reflexivity.
  - discriminate.
  - reflexivity.
Defined.

(** X19.  A PATCH that carries a non-empty name and no distance renames
    the store and does nothing else: Qdrant is not called, the other fields
    and the other stores are as before, and get_vector_store then returns
    the new name. *)
Theorem update_vector_store_renames env store_id req w meta n :
  VECTOR_STORES w !! store_id = Some meta →
  update_name req = Some n →
  n ≠ "" →
  update_distance req = None →
  let r := update_vector_store env store_id req w in
  let meta' := mkMeta n (collection meta) (dimension meta) (distance meta)
                      (files meta) in
  r.1 = Returned (store_id, meta') ∧
  trace r.2 = trace w ∧
  VECTOR_STORES r.2 = <[store_id := meta']> (VECTOR_STORES w) ∧
  get_vector_store store_id r.2 = (Returned (store_id, meta'), r.2).
Proof.
  intros Hstore Hname Hn Hdist r meta'. subst r meta'.
  rewrite (update_vector_store_run env store_id req w meta Hstore), Hname, Hdist.
  apply truthy_spec in Hn. rewrite Hn. cbn [fst snd]. split_and!; try done.
  unfold get_vector_store. run. by rewrite lookup_insert_eq.
Qed.

Lemma update_vector_store_renames_witness :
  let req := mkUpdateReq (Some "updated_pytest") None in
  let w := Scenario.world in
  let r := update_vector_store Scenario.qdrant_down "0" req w in
  let meta' := mkMeta "updated_pytest" "vs_0" 4 COSINE ∅ in
  r.1 = Returned ("0", meta') ∧
  trace r.2 = trace w ∧
  VECTOR_STORES r.2 = <[ "0" := meta' ]> (VECTOR_STORES w) ∧
  get_vector_store "0" r.2 = (Returned ("0", meta'), r.2).
Proof.
  intros req w.
  apply (update_vector_store_renames Scenario.qdrant_down "0" req w
           Scenario.store "updated_pytest").
  - vm_compute; reflexivity.
  - reflexivity.
  - discriminate.
  - reflexivity.
Defined.

(** X20.  If every store id of the registry is a value uuid4 has given,
    as is the case of the empty registry the process starts with, this is
    still so after a request, whichever endpoint serves it. *)
Theorem ids_issued_kept env w :
  ids_issued env w →
  (∀ req, ids_issued env (create_vector_store env req w).2) ∧
  (∀ store_id req, ids_issued env (update_vector_store env store_id req w).2) ∧
  (∀ store_id, ids_issued env (delete_vector_store env store_id w).2) ∧
  (∀ store_id file, ids_issued env (upload_file env store_id file w).2) ∧
  (∀ store_id file_id, ids_issued env (delete_file env store_id file_id w).2) ∧
  (∀ store_id req, ids_issued env (query_vectors env store_id req w).2).
Proof.
  intros Hissued. split_and!; intros.
  - by apply ids_issued_create.
  - by apply ids_issued_update.
  - by apply ids_issued_delete.
  - by apply ids_issued_upload.
  - by apply ids_issued_delete_file.
  - by apply ids_issued_query.
Qed.

Lemma ids_issued_kept_witness :
  let env := Scenario.healthy in
  let w := initial_world in
  (∀ req, ids_issued env (create_vector_store env req w).2) ∧
  (∀ store_id req, ids_issued env (update_vector_store env store_id req w).2) ∧
  (∀ store_id, ids_issued env (delete_vector_store env store_id w).2) ∧
  (∀ store_id file, ids_issued env (upload_file env store_id file w).2) ∧
  (∀ store_id file_id, ids_issued env (delete_file env store_id file_id w).2) ∧
  (∀ store_id req, ids_issued env (query_vectors env store_id req w).2).
Proof.
  intros env w.
  apply (ids_issued_kept env w).
  apply ids_issued_initial.
Defined.
